(** * Tic-Tac-Toe with a minimax bot: a shallow embedding of
    [tictactoe_minimax.py] and the properties of its search.

    The Python program keeps one mutable 3x3 list of lists of one-character
    strings ([Board.board]) and walks the game tree by writing a symbol into
    a free position, recursing, and writing ['-'] back.  The embedding keeps
    that shape: the board is a [list (list string)], every function that
    writes to it returns the board it leaves behind, and an index out of
    range, an unbound local or an exhausted input stream is an explicit
    error result. *)

From Stdlib Require Import ZArith String Ascii List Lia.
From stdpp Require Import base tactics option list.
Import ListNotations.

Local Open Scope string_scope.
Local Open Scope Z_scope.

(** ** Results of running Python code *)

(** What a call can end with.  [OutOfFuel] is not a Python outcome: it only
    marks that the recursion budget given to [minimax] or to the game loop
    was too small; the theorems below show which budget is always enough. *)
Inductive result (A : Type) : Type :=
| Ok (a : A)
| IndexError
| UnboundLocalError
| KeyError
| EOFError
| OutOfFuel.
Arguments Ok {A} a.
Arguments IndexError {A}.
Arguments UnboundLocalError {A}.
Arguments KeyError {A}.
Arguments EOFError {A}.
Arguments OutOfFuel {A}.

Definition bind {A B : Type} (m : result A) (k : A → result B) : result B :=
  match m with
  | Ok a => k a
  | IndexError => IndexError
  | UnboundLocalError => UnboundLocalError
  | KeyError => KeyError
  | EOFError => EOFError
  | OutOfFuel => OutOfFuel
  end.

Declare Scope py_scope.
Delimit Scope py_scope with py.
Notation "x <- m ;; k" := (bind m (fun x => k))
  (at level 20, m at level 99, k at level 200) : py_scope.
Notation "' p <- m ;; k" := (bind m (fun x => let 'p := x in k))
  (at level 20, p pattern, m at level 99, k at level 200) : py_scope.
Local Open Scope py_scope.

(** [for x in items: body], with the loop-carried variables in [s]. *)
Fixpoint for_in {I S : Type} (items : list I) (body : I → S → result S) (s : S)
  : result S :=
  match items with
  | [] => Ok s
  | i :: rest => s' <- body i s ;; for_in rest body s'
  end.

(** [range(n)] *)
Definition range (n : nat) : list nat := seq 0 n.

(** ** Players and the board *)

Record Player := { name : string; symbol : string }.

(** [Board.board]: the rows of the grid. *)
Abbreviation Board := (list (list string)).

(** [Board.__init__] *)
Definition new_board : Board :=
  [ ["-"; "-"; "-"];
    ["-"; "-"; "-"];
    ["-"; "-"; "-"] ].

(** [state.board[x]] *)
Definition getrow (b : Board) (x : nat) : result (list string) :=
  match b !! x with
  | Some r => Ok r
  | None => IndexError
  end.

(** [state.board[x][y]] *)
Definition getitem (b : Board) (x y : nat) : result string :=
  r <- getrow b x ;;
  match r !! y with
  | Some c => Ok c
  | None => IndexError
  end.

(** [state.board[x][y] = v]: Python raises IndexError out of range, where
    stdpp's insert would leave the list as it is. *)
Definition setitem (b : Board) (x y : nat) (v : string) : result Board :=
  r <- getrow b x ;;
  match r !! y with
  | Some _ => Ok (<[x := <[y := v]> r]> b)
  | None => IndexError
  end.

(** [a and b] on conditions that may raise: [b] is not evaluated when [a]
    is false. *)
Definition and_then (a b : result bool) : result bool :=
  x <- a ;; if x then b else Ok false.

(** [a or b], likewise. *)
Definition or_else (a b : result bool) : result bool :=
  x <- a ;; if x then Ok true else b.

(** [self.board[x][y] == s] *)
Definition cell_is (b : Board) (x y : nat) (s : string) : result bool :=
  c <- getitem b x y ;; Ok (String.eqb c s).

(** The body of the loop of [Board.game_state] for one [i]: [Some w] when
    one of the four tests returns, [None] when the loop goes on. *)
Definition game_state_at (b : Board) (i : nat)
  : result (option (bool * option string)) :=
  t1 <- and_then (cell_is b i 0 "X") (and_then (cell_is b i 1 "X") (cell_is b i 2 "X")) ;;
  if t1 then Ok (Some (true, Some "X")) else
  t2 <- and_then (cell_is b i 0 "O") (and_then (cell_is b i 1 "O") (cell_is b i 2 "O")) ;;
  if t2 then Ok (Some (true, Some "O")) else
  t3 <- and_then (cell_is b 0 i "X") (and_then (cell_is b 1 i "X") (cell_is b 2 i "X")) ;;
  if t3 then Ok (Some (true, Some "X")) else
  t4 <- and_then (cell_is b 0 i "O") (and_then (cell_is b 1 i "O") (cell_is b 2 i "O")) ;;
  if t4 then Ok (Some (true, Some "O")) else
  Ok None.

(** A [for] loop whose body may [return]. *)
Fixpoint for_return {I R : Type} (items : list I) (body : I → result (option R))
  : result (option R) :=
  match items with
  | [] => Ok None
  | i :: rest =>
      r <- body i ;;
      match r with
      | Some w => Ok (Some w)
      | None => for_return rest body
      end
  end.

(** [Board.game_state]: the pair (won?, symbol of the winner or None). *)
Definition game_state (b : Board) : result (bool * option string) :=
  r <- for_return (range 3) (game_state_at b) ;;
  match r with
  | Some w => Ok w
  | None =>
      dx <- or_else
              (and_then (cell_is b 0 0 "X") (and_then (cell_is b 1 1 "X") (cell_is b 2 2 "X")))
              (and_then (cell_is b 0 2 "X") (and_then (cell_is b 1 1 "X") (cell_is b 2 0 "X"))) ;;
      if dx then Ok (true, Some "X") else
      do <- or_else
              (and_then (cell_is b 0 0 "O") (and_then (cell_is b 1 1 "O") (cell_is b 2 2 "O")))
              (and_then (cell_is b 0 2 "O") (and_then (cell_is b 1 1 "O") (cell_is b 2 0 "O"))) ;;
      if do then Ok (true, Some "O") else
      Ok (false, None)
  end.

(** [Board.check_pos] *)
Definition check_pos (b : Board) (x y : nat) : result bool :=
  c <- getitem b x y ;; Ok (String.eqb c "-").

(** [Board.board_full]: False at the first ['-'] met, True otherwise. *)
Definition board_full (b : Board) : bool :=
  forallb (fun row => forallb (fun col => negb (String.eqb col "-")) row) b.

(** ** The search *)

(** [symb == s] where [symb] may be Python's None. *)
Definition symb_is (symb : option string) (s : string) : bool :=
  match symb with
  | Some t => String.eqb t s
  | None => false
  end.

(** The terminal test at the head of [minimax]: [Some v] when one of the
    three [return]s is taken, [None] when control falls through to the
    layers below. *)
Definition terminal_score (full g_state : bool) (symb : option string)
  : option Z :=
  if full || g_state then
    if g_state && symb_is symb "X" then Some (-10)
    else if g_state && symb_is symb "O" then Some 10
    else if negb g_state then Some 0
    else None
  else None.

(** [minimax(state, depth, max_or_min)].  It returns the score together with
    the board as the call leaves it.  The first argument bounds the depth
    of the recursion. *)
Fixpoint minimax (fuel : nat) (state : Board) (depth : Z) (max_or_min : bool)
  : result (Z * Board) :=
  match fuel with
  | O => OutOfFuel
  | S fuel' =>
      '(g_state, symb) <- game_state state ;;
      match terminal_score (board_full state) g_state symb with
      | Some v => Ok (v, state)
      | None =>
          if max_or_min then
            '(state, best_score) <-
              for_in (range (length state)) (fun row '(state, best_score) =>
                r <- getrow state row ;;
                for_in (range (length r)) (fun col '(state, best_score) =>
                  c <- getitem state row col ;;
                  if String.eqb c "-" then
                    state <- setitem state row col "O" ;;
                    '(score, state) <- minimax fuel' state (depth + 1) false ;;
                    state <- setitem state row col "-" ;;
                    if score >? best_score then Ok (state, score)
                    else Ok (state, best_score)
                  else Ok (state, best_score))
                  (state, best_score))
                (state, -10000) ;;
            Ok (best_score, state)
          else
            '(state, best_score) <-
              for_in (range (length state)) (fun row '(state, best_score) =>
                r <- getrow state row ;;
                for_in (range (length r)) (fun col '(state, best_score) =>
                  c <- getitem state row col ;;
                  if String.eqb c "-" then
                    state <- setitem state row col "X" ;;
                    '(score, state) <- minimax fuel' state (depth + 1) true ;;
                    state <- setitem state row col "-" ;;
                    if score <? best_score then Ok (state, score)
                    else Ok (state, best_score)
                  else Ok (state, best_score))
                  (state, best_score))
                (state, 10000) ;;
            Ok (best_score, state)
      end
  end.

(** [ai(state, player)].  [best_move] is unbound until the first empty
    position has been scored; returning it unbound raises. *)
Definition ai (fuel : nat) (state : Board) (player : Player)
  : result (nat * nat * Board) :=
  '(state, (best_score, best_move)) <-
    for_in (range (length state)) (fun row '(state, (best_score, best_move)) =>
      r <- getrow state row ;;
      for_in (range (length r)) (fun col '(state, (best_score, best_move)) =>
        c <- getitem state row col ;;
        if String.eqb c "-" then
          state <- setitem state row col (symbol player) ;;
          '(score, state) <- minimax fuel state 0 false ;;
          state <- setitem state row col "-" ;;
          if score >? best_score then Ok (state, (score, Some (row, col)))
          else Ok (state, (best_score, best_move))
        else Ok (state, (best_score, best_move)))
        (state, (best_score, best_move)))
      (state, (-10000, None)) ;;
  match best_move with
  | Some (x, y) => Ok (x, y, state)
  | None => UnboundLocalError
  end.

(** ** The game around the search *)

(** [Board.set_player]: the bot's position comes from [ai], a person's from
    the arguments. *)
Definition set_player (fuel : nat) (b : Board) (player : Player) (x y : nat)
  : result Board :=
  if String.eqb (name player) "Bot" then
    '(best_x, best_y, b) <- ai fuel b player ;;
    setitem b best_x best_y (symbol player)
  else setitem b x y (symbol player).

(** The dictionary [moves] of [make_play]. *)
Definition moves (move : Z) : result (nat * nat) :=
  match move with
  | 1 => Ok (0, 0)%nat | 2 => Ok (0, 1)%nat | 3 => Ok (0, 2)%nat
  | 4 => Ok (1, 0)%nat | 5 => Ok (1, 1)%nat | 6 => Ok (1, 2)%nat
  | 7 => Ok (2, 0)%nat | 8 => Ok (2, 1)%nat | 9 => Ok (2, 2)%nat
  | _ => KeyError
  end.

(** The two nested [while] loops of [make_play].  [inputs] are the integers
    typed at the prompt, in order (a line that is not an integer only prints
    a message and asks again); the loops consume them until one names a free
    position, and raise EOFError when the input ends first. *)
Fixpoint choose_position (b : Board) (inputs : list Z)
  : result (nat * nat * list Z) :=
  match inputs with
  | [] => EOFError
  | move :: rest =>
      if (move <? 10) && (move >? 0) then
        '(x, y) <- moves move ;;
        free_pos <- check_pos b x y ;;
        if free_pos then Ok (x, y, rest) else choose_position b rest
      else choose_position b rest
  end.

(** [make_play] *)
Definition make_play (fuel : nat) (b : Board) (player : Player) (inputs : list Z)
  : result (Board * list Z) :=
  if String.eqb (name player) "Bot" then
    b <- set_player fuel b player 0 0 ;; Ok (b, inputs)
  else
    '(x, y, rest) <- choose_position b inputs ;;
    b <- set_player fuel b player x y ;; Ok (b, rest).

(** What the main loop prints before it stops. *)
Inductive announcement : Type :=
| HasWon (p : Player)
| EndedAsDraw.

(** The main game loop of [main]; [rounds] bounds the number of turns. *)
Fixpoint game_loop (rounds fuel : nat) (p1 p2 : Player) (turn : Z)
    (game_board : Board) (inputs : list Z) : result (announcement * Board) :=
  match rounds with
  | O => OutOfFuel
  | S rounds' =>
      '(game_board, inputs) <-
        make_play fuel game_board (if turn =? 1 then p1 else p2) inputs ;;
      '(g_state, symb) <- game_state game_board ;;
      if g_state then
        Ok (HasWon (if turn =? 1 then p1 else p2), game_board)
      else if board_full game_board then Ok (EndedAsDraw, game_board)
      else game_loop rounds' fuel p1 p2 (turn * -1) game_board inputs
  end.

(** [main] with game type "1": a person with ['X'] against the bot with
    ['O']; [rand_gt_half] is the outcome of [rand > .5]. *)
Definition single_player (rounds fuel : nat) (person : string)
    (rand_gt_half : bool) (inputs : list Z) : result (announcement * Board) :=
  let p1 := {| name := person; symbol := "X" |} in
  let p2 := {| name := "Bot"; symbol := "O" |} in
  game_loop rounds fuel p1 p2 (if rand_gt_half then 1 else -1) new_board inputs.

(** ** Notions the properties are stated with *)

(** The board has three rows of three positions. *)
Definition is_3x3 (b : Board) : Prop :=
  length b = 3%nat ∧ Forall (fun r => length r = 3%nat) b.

(** The positions of the board in row-major order, as the two nested loops
    of [ai] and [minimax] visit them. *)
Definition coords (b : Board) : list (nat * nat) :=
  flat_map (fun row => map (pair row) (range (length (default [] (b !! row)))))
           (range (length b)).

(** [state.board[x][y] == "-"] for a position of the board. *)
Definition is_free (b : Board) (p : nat * nat) : bool :=
  match getitem b p.1 p.2 with
  | Ok c => String.eqb c "-"
  | _ => false
  end.

(** The free positions in row-major order, and their number. *)
Definition empty_cells (b : Board) : list (nat * nat) :=
  List.filter (is_free b) (coords b).

Definition count_empty (b : Board) : nat := length (empty_cells b).

(** The board with [v] written at [(x, y)]. *)
Definition put (b : Board) (x y : nat) (v : string) : Board :=
  <[x := <[y := v]> (default [] (b !! x))]> b.

(** The eight winning lines: three rows, three columns, two diagonals. *)
Definition lines : list ((nat * nat) * (nat * nat) * (nat * nat)) :=
  [ ((0, 0), (0, 1), (0, 2)); ((1, 0), (1, 1), (1, 2)); ((2, 0), (2, 1), (2, 2));
    ((0, 0), (1, 0), (2, 0)); ((0, 1), (1, 1), (2, 1)); ((0, 2), (1, 2), (2, 2));
    ((0, 0), (1, 1), (2, 2)); ((0, 2), (1, 1), (2, 0)) ]%nat.

(** The three positions of line [l] all hold [s]. *)
Definition line_filled (b : Board) (s : string)
    (l : (nat * nat) * (nat * nat) * (nat * nat)) : Prop :=
  let '(p, q, r) := l in
  getitem b p.1 p.2 = Ok s ∧ getitem b q.1 q.2 = Ok s ∧ getitem b r.1 r.2 = Ok s.

Definition has_line (b : Board) (s : string) : Prop :=
  ∃ l, l ∈ lines ∧ line_filled b s l.

(** The board with line [l] filled with [s] and every other position free. *)
Definition only_line (s : string)
    (l : (nat * nat) * (nat * nat) * (nat * nat)) : Board :=
  let '(p, q, r) := l in
  put (put (put new_board p.1 p.2 s) q.1 q.2 s) r.1 r.2 s.

(** What [game_state] computes on a board of three rows of three, without
    the index checks: the content of a position, whether a line is filled,
    and the tests in the order of the source. *)
Definition cell (b : Board) (x y : nat) : string :=
  match getitem b x y with
  | Ok c => c
  | _ => ""
  end.

Definition three (b : Board) (s : string)
    (l : (nat * nat) * (nat * nat) * (nat * nat)) : bool :=
  let '(p, q, r) := l in
  String.eqb (cell b p.1 p.2) s && String.eqb (cell b q.1 q.2) s
  && String.eqb (cell b r.1 r.2) s.

Definition verdict_at (b : Board) (i : nat) : option (bool * option string) :=
  if three b "X" ((i, 0), (i, 1), (i, 2))%nat then Some (true, Some "X")
  else if three b "O" ((i, 0), (i, 1), (i, 2))%nat then Some (true, Some "O")
  else if three b "X" ((0, i), (1, i), (2, i))%nat then Some (true, Some "X")
  else if three b "O" ((0, i), (1, i), (2, i))%nat then Some (true, Some "O")
  else None.

Definition verdict (b : Board) : bool * option string :=
  match verdict_at b 0 with
  | Some w => w
  | None =>
  match verdict_at b 1 with
  | Some w => w
  | None =>
  match verdict_at b 2 with
  | Some w => w
  | None =>
      if three b "X" ((0, 0), (1, 1), (2, 2))%nat
         || three b "X" ((0, 2), (1, 1), (2, 0))%nat
      then (true, Some "X")
      else if three b "O" ((0, 0), (1, 1), (2, 2))%nat
              || three b "O" ((0, 2), (1, 1), (2, 0))%nat
      then (true, Some "O")
      else (false, None)
  end end end.

(** Neither won nor full: the game goes on. *)
Definition non_terminal (b : Board) : Prop :=
  game_state b = Ok (false, None) ∧ board_full b = false.


(** ** The shared shape of the three search loops

    [ai] and the two layers of [minimax] run the same pair of nested loops:
    on every free position write a symbol, score the board with a recursive
    call, write ['-'] back, and fold the score into the running best.  The
    loops differ in the symbol written, in the call made and in how the
    score is folded; [sweep] is that loop with the three as parameters, and
    the lemmas [minimax_sweep] and [ai_sweep] show that the loops written
    out in [minimax] and [ai] are instances of it. *)
Section Sweep.
Context {A : Type}.
Variable rec : Board → result (Z * Board).
Variable mark : string.
Variable upd : nat → nat → Z → A → A.

Definition visit (row col : nat) (s : Board * A) : result (Board * A) :=
  let '(state, acc) := s in
  c <- getitem state row col ;;
  if String.eqb c "-" then
    state <- setitem state row col mark ;;
    '(score, state) <- rec state ;;
    state <- setitem state row col "-" ;;
    Ok (state, upd row col score acc)
  else Ok (state, acc).

Definition sweep_row (row : nat) (s : Board * A) : result (Board * A) :=
  r <- getrow s.1 row ;;
  for_in (range (length r)) (visit row) s.

Definition sweep (b : Board) (acc : A) : result (Board * A) :=
  for_in (range (length b)) sweep_row (b, acc).

(** Folding the score of one position into the accumulator. *)
Definition fold_score (score : nat * nat → Z) (acc : A) (p : nat * nat) : A :=
  upd p.1 p.2 (score p) acc.
End Sweep.

(** The three folds: [if(score > best_score)] in the maximizing layer,
    [if(score < best_score)] in the minimizing layer, and the one of [ai],
    which also records the position. *)
Definition keep_max (row col : nat) (score best_score : Z) : Z :=
  if score >? best_score then score else best_score.

Definition keep_min (row col : nat) (score best_score : Z) : Z :=
  if score <? best_score then score else best_score.

Definition keep_move (row col : nat) (score : Z)
    (best : Z * option (nat * nat)) : Z * option (nat * nat) :=
  if score >? best.1 then (score, Some (row, col)) else best.

(** The score of a call, 0 when it raised. *)
Definition score_of (r : result (Z * Board)) : Z :=
  match r with
  | Ok (v, _) => v
  | _ => 0
  end.

(** The scores the search hands out. *)
Definition is_score (v : Z) : Prop := v = -10 ∨ v = 0 ∨ v = 10.

(** [p] is the first position of [l] that has the largest score of [l]:
    the positions before it score strictly less, the ones after it at most
    as much. *)
Definition first_best (score : nat * nat → Z) (l : list (nat * nat))
    (p : nat * nat) : Prop :=
  ∃ l1 l2, l = (l1 ++ p :: l2)%list
           ∧ (∀ q, In q l1 → score q < score p)
           ∧ (∀ q, In q l2 → score q ≤ score p).

(** The score [ai] gives a free position: the result of
    [minimax(state, 0, False)] on the board with the mover's symbol there. *)
Definition move_score (fuel : nat) (b : Board) (player : Player)
    (p : nat * nat) : Z :=
  score_of (minimax fuel (put b p.1 p.2 (symbol player)) 0 false).

(** ** Boards of the scenarios *)

(** The bot can complete its top row. *)
Definition top_row_open : Board :=
  [ ["O"; "O"; "-"];
    ["X"; "X"; "-"];
    ["-"; "-"; "-"] ].

(** Only the bottom right position is free. *)
Definition last_cell_open : Board :=
  [ ["X"; "O"; "X"];
    ["O"; "X"; "O"];
    ["O"; "X"; "-"] ].

(** The top row is three ['O'] and the middle row three ['X']. *)
Definition two_lines : Board :=
  [ ["O"; "O"; "O"];
    ["X"; "X"; "X"];
    ["-"; "-"; "-"] ].

(** A full board without a line. *)
Definition drawn_board : Board :=
  [ ["X"; "O"; "X"];
    ["O"; "X"; "O"];
    ["O"; "X"; "O"] ].

(** ** Games against the bot *)

(** The bot of [main]. *)
Definition bot : Player := {| name := "Bot"; symbol := "O" |}.

(** The outcomes of the main loop in which the person has not won: the bot
    is announced as the winner on a board that ['O'] has won, the game is
    announced as a draw on a full board that nobody has won, or the input
    of the person ended before the game did. *)
Definition bot_not_beaten (r : result (announcement * Board)) : Prop :=
  match r with
  | Ok (HasWon p, b) => p = bot ∧ game_state b = Ok (true, Some "O")
  | Ok (EndedAsDraw, b) => game_state b = Ok (false, None) ∧ board_full b = true
  | EOFError => True
  | _ => False
  end.

(** The input names every position: each of the numbers 1 to 9 occurs. *)
Definition has_all (l : list Z) : Prop := ∀ m, 0 < m < 10 → In m l.

(** [supply k inputs]: the input starts with [k] stretches that each name
    every position, so that [k] turns of the person can be answered. *)
Inductive supply : nat → list Z → Prop :=
| supply_O l : supply 0 l
| supply_S k l1 l2 : has_all l1 → supply k l2 → supply (S k) (l1 ++ l2)%list.

(** A person who names the nine positions in order, nine times over. *)
Definition patient_input : list Z :=
  concat (replicate 9 [1; 2; 3; 4; 5; 6; 7; 8; 9]).

(** The score [minimax] gives board [b] in the layer [max_or_min]. *)
Definition value (fuel : nat) (b : Board) (max_or_min : bool) : Z :=
  score_of (minimax fuel b 0 max_or_min).

(** A strategy for ['O'] that never loses exists from [b]: the board is not
    won by ['X'] and, unless the game is over, some move of ['O'] (in the
    maximizing layer) or every move of ['X'] (in the minimizing layer) leads
    to a board with the same property.  [n] bounds the number of moves. *)
Fixpoint holds_draw (n : nat) (max_or_min : bool) (b : Board) : bool :=
  match n with
  | O => false
  | S n' =>
      match game_state b with
      | Ok (true, symb) => symb_is symb "O"
      | Ok (false, _) =>
          if board_full b then true
          else if max_or_min
               then existsb (fun p => holds_draw n' false (put b p.1 p.2 "O"))
                            (empty_cells b)
               else forallb (fun p => holds_draw n' true (put b p.1 p.2 "X"))
                            (empty_cells b)
      | _ => false
      end
  end.

(** ** The rest of the program *)

(** [main] with game type "2": two persons, the first with ['X'], the second
    with ['O']. *)
Definition two_player (rounds fuel : nat) (first second : string)
    (rand_gt_half : bool) (inputs : list Z) : result (announcement * Board) :=
  let p1 := {| name := first; symbol := "X" |} in
  let p2 := {| name := second; symbol := "O" |} in
  game_loop rounds fuel p1 p2 (if rand_gt_half then 1 else -1) new_board inputs.

(** The outcomes of the main loop in which the announcement agrees with the
    board: the player announced as winner is one of the two and
    [game_state] reports that player's symbol, a draw is announced on a full
    board nobody has won, or the input ended before the game did. *)
Definition fair_outcome (p1 p2 : Player) (r : result (announcement * Board))
  : Prop :=
  match r with
  | Ok (HasWon p, b) =>
      (p = p1 ∨ p = p2) ∧ game_state b = Ok (true, Some (symbol p))
  | Ok (EndedAsDraw, b) => game_state b = Ok (false, None) ∧ board_full b = true
  | EOFError => True
  | _ => False
  end.
(** The outcomes of the main loop in which the bot has won, or the input of
    the person ended before the game did. *)
Definition bot_wins (r : result (announcement * Board)) : Prop :=
  match r with
  | Ok (HasWon p, b) => p = bot ∧ game_state b = Ok (true, Some "O")
  | EOFError => True
  | _ => False
  end.

(** The number of positions of the board that hold [s]. *)
Definition count_symbol (b : Board) (s : string) : nat :=
  length (List.filter (String.eqb s) (concat b)).

(** [Board.show_board]: the text printed, every position followed by a
    blank, every row by a line break. *)
Definition newline : string := String (ascii_of_nat 10) "".

Definition show_row (row : list string) : string :=
  fold_right (fun col out => col ++ " " ++ out) newline row.

Definition show_board (b : Board) : string :=
  fold_right (fun row out => show_row row ++ out) "" b.

(** Every position holds a string of one character. *)
Definition one_char_cells (b : Board) : Prop :=
  Forall (Forall (fun c => String.length c = 1%nat)) b.
(** An input the prompt does not accept on board [b]: not a number from 1
    to 9, or the number of a position that is taken. *)
Definition refused (b : Board) (move : Z) : Prop :=
  ¬ (0 < move < 10)
  ∨ ∃ x y c, moves move = Ok (x, y) ∧ getitem b x y = Ok c ∧ c ≠ "-".

(** Before a turn the player to move has as many symbols on the board as
    the other player, or one less. *)
Definition balanced (turn : Z) (b : Board) : Prop :=
  if turn =? 1
  then (count_symbol b "X" ≤ count_symbol b "O" ≤ count_symbol b "X" + 1)%nat
  else (count_symbol b "O" ≤ count_symbol b "X" ≤ count_symbol b "O" + 1)%nat.

(** Two persons, and a game between them that the first one wins. *)
Definition ann : Player := {| name := "Ann"; symbol := "X" |}.
Definition ben : Player := {| name := "Ben"; symbol := "O" |}.

(** The board at the end of the game in which Ann plays 1, 3, 5, 7 and Ben
    2, 4, 6. *)
Definition ann_wins_board : Board :=
  [ ["X"; "O"; "X"];
    ["O"; "X"; "O"];
    ["X"; "-"; "-"] ].

(** A board on which ['O'] threatens both diagonals. *)
Definition fork_board : Board :=
  [ ["O"; "X"; "O"];
    ["X"; "O"; "X"];
    ["-"; "-"; "-"] ].

(** A board on which ['O'] can complete the middle row at once. *)
Definition middle_row_open : Board :=
  [ ["-"; "X"; "-"];
    ["-"; "O"; "O"];
    ["-"; "X"; "-"] ].

(** The position a Python integer index [i] denotes in a list of length
    [len]: [i] itself from 0 to [len - 1], [len + i] from [-len] to -1 (a
    negative index counts from the end), IndexError otherwise. *)
Definition py_index (len : nat) (i : Z) : result nat :=
  if (0 <=? i) && (i <? Z.of_nat len) then Ok (Z.to_nat i)
  else if (i <? 0) && (- Z.of_nat len <=? i)
       then Ok (Z.to_nat (Z.of_nat len + i))
       else IndexError.

(** [Board.set_player] called with arbitrary Python integers [x], [y], as a
    caller outside the program may do ([make_play] only passes positions of
    the dictionary [moves], for which [set_player] above is the same
    function, see [set_player_int_nat]). *)
Definition set_player_int (fuel : nat) (b : Board) (player : Player) (x y : Z)
  : result Board :=
  if String.eqb (name player) "Bot" then
    '(best_x, best_y, b) <- ai fuel b player ;;
    setitem b best_x best_y (symbol player)
  else
    i <- py_index (length b) x ;;
    r <- getrow b i ;;
    j <- py_index (length r) y ;;
    setitem b i j (symbol player).

(** * Proofs *)

(** ** Reading and writing positions *)

Lemma getitem_Ok (b : Board) x y c :
  getitem b x y = Ok c ↔ ∃ r, b !! x = Some r ∧ r !! y = Some c.
Proof.
  unfold getitem, getrow. split.
  - destruct (b !! x) as [r|] eqn:Hr; simpl; [|discriminate].
    destruct (r !! y) as [c'|] eqn:Hc; [|discriminate].
    intros [= ->]. eauto.
  - intros (r & -> & Hc). simpl. by rewrite Hc.
Qed.

Lemma setitem_Ok (b : Board) x y c v :
  getitem b x y = Ok c → setitem b x y v = Ok (put b x y v).
Proof.
  intros (r & Hr & Hc)%getitem_Ok.
  unfold setitem, getrow, put. rewrite Hr. simpl. by rewrite Hc.
Qed.

Lemma setitem_inv (b b' : Board) x y v :
  setitem b x y v = Ok b' → b' = put b x y v ∧ ∃ c, getitem b x y = Ok c.
Proof.
  unfold setitem, getrow, put.
  destruct (b !! x) as [r|] eqn:Hr; simpl; [|discriminate].
  destruct (r !! y) as [c|] eqn:Hc; [|discriminate].
  intros [= <-]. split; [done|]. exists c. apply getitem_Ok. eauto.
Qed.

Lemma getitem_put_eq (b : Board) x y c v :
  getitem b x y = Ok c → getitem (put b x y v) x y = Ok v.
Proof.
  intros (r & Hr & Hc)%getitem_Ok. apply getitem_Ok.
  exists (<[y := v]> r). unfold put. rewrite Hr. simpl. split.
  - apply list_lookup_insert_eq. by eapply lookup_lt_Some.
  - apply list_lookup_insert_eq. by eapply lookup_lt_Some.
Qed.

Lemma getitem_put_ne (b : Board) x y x' y' v :
  (x, y) ≠ (x', y') → getitem (put b x y v) x' y' = getitem b x' y'.
Proof.
  intros Hne. unfold getitem, getrow, put.
  destruct (decide (x = x')) as [<-|Hx].
  - destruct (b !! x) as [r|] eqn:Hr; simpl.
    + rewrite list_lookup_insert_eq by by eapply lookup_lt_Some.
      simpl. rewrite list_lookup_insert_ne by congruence. done.
    + rewrite list_insert_ge by by apply lookup_ge_None.
      by rewrite Hr.
  - by rewrite list_lookup_insert_ne.
Qed.

Lemma put_put (b : Board) x y v w :
  put (put b x y v) x y w = put b x y w.
Proof.
  unfold put. destruct (b !! x) as [r|] eqn:Hr; simpl.
  - rewrite list_lookup_insert_eq by by eapply lookup_lt_Some.
    simpl. by rewrite !list_insert_insert_eq.
  - rewrite (list_insert_ge b) by by apply lookup_ge_None.
    by rewrite Hr.
Qed.

Lemma put_same (b : Board) x y c :
  getitem b x y = Ok c → put b x y c = b.
Proof.
  intros (r & Hr & Hc)%getitem_Ok. unfold put. rewrite Hr. simpl.
  rewrite (list_insert_id r) by done. by apply list_insert_id.
Qed.

Lemma put_restore (b : Board) x y c v :
  getitem b x y = Ok c → put (put b x y v) x y c = b.
Proof. intros H. rewrite put_put. by apply put_same. Qed.

Lemma length_put (b : Board) x y v : length (put b x y v) = length b.
Proof. unfold put. by rewrite length_insert. Qed.

Lemma row_length_put (b : Board) x y v i :
  length (default [] (put b x y v !! i)) = length (default [] (b !! i)).
Proof.
  unfold put. destruct (decide (x = i)) as [<-|Hx].
  - destruct (b !! x) as [r|] eqn:Hr; simpl.
    + rewrite list_lookup_insert_eq by by eapply lookup_lt_Some.
      simpl. by rewrite length_insert.
    + rewrite list_insert_ge by by apply lookup_ge_None. by rewrite Hr.
  - by rewrite list_lookup_insert_ne.
Qed.

Lemma coords_put (b : Board) x y v : coords (put b x y v) = coords b.
Proof.
  unfold coords. rewrite length_put.
  apply flat_map_ext. intros i. by rewrite row_length_put.
Qed.

Lemma is_3x3_put (b : Board) x y v : is_3x3 b → is_3x3 (put b x y v).
Proof.
  intros [Hl Hr]. split; [by rewrite length_put|].
  apply Forall_lookup. intros i r Hi.
  pose proof (row_length_put b x y v i) as E. rewrite Hi in E. simpl in E.
  rewrite E. destruct (b !! i) as [r'|] eqn:Hr'.
  - simpl. by eapply (Forall_lookup_1 _ _ _ _ Hr).
  - apply lookup_lt_Some in Hi. rewrite length_put in Hi.
    apply lookup_ge_None in Hr'. lia.
Qed.

Lemma is_3x3_inv (b : Board) :
  is_3x3 b →
  ∃ a0 a1 a2 b0 b1 b2 c0 c1 c2,
    b = [ [a0; a1; a2]; [b0; b1; b2]; [c0; c1; c2] ].
Proof.
  intros [Hl Hr].
  destruct b as [|r0 [|r1 [|r2 [|]]]]; try discriminate.
  apply Forall_cons in Hr as [H0 Hr].
  apply Forall_cons in Hr as [H1 Hr].
  apply Forall_cons in Hr as [H2 _].
  destruct r0 as [|a0 [|a1 [|a2 [|]]]]; try discriminate.
  destruct r1 as [|b0 [|b1 [|b2 [|]]]]; try discriminate.
  destruct r2 as [|c0 [|c1 [|c2 [|]]]]; try discriminate.
  by exists a0, a1, a2, b0, b1, b2, c0, c1, c2.
Qed.

Lemma is_3x3_grid a0 a1 a2 b0 b1 b2 c0 c1 c2 :
  is_3x3 [ [a0; a1; a2]; [b0; b1; b2]; [c0; c1; c2] ].
Proof. split; [done|]. repeat constructor. Qed.

(** ** Free positions *)

Lemma is_free_true (b : Board) x y :
  is_free b (x, y) = true ↔ getitem b x y = Ok "-".
Proof.
  unfold is_free. simpl. split.
  - destruct (getitem b x y) as [c| | | | |]; try discriminate.
    by intros ->%String.eqb_eq.
  - intros ->. apply String.eqb_refl.
Qed.

Lemma in_coords (b : Board) x y c :
  getitem b x y = Ok c → In (x, y) (coords b).
Proof.
  intros (r & Hr & Hc)%getitem_Ok. unfold coords, range.
  apply in_flat_map. exists x. split.
  - apply in_seq. apply lookup_lt_Some in Hr. lia.
  - rewrite Hr. simpl. apply in_map, in_seq.
    apply lookup_lt_Some in Hc. lia.
Qed.

Lemma in_empty_cells (b : Board) x y :
  In (x, y) (empty_cells b) ↔ getitem b x y = Ok "-".
Proof.
  unfold empty_cells. rewrite filter_In, is_free_true. split.
  - by intros [_ H].
  - intros H. split; [by eapply in_coords|done].
Qed.

Lemma filter_length_le {A} (f g : A → bool) (l : list A) :
  (∀ q, g q = true → f q = true) →
  (length (List.filter g l) ≤ length (List.filter f l))%nat.
Proof.
  intros Hgf. induction l as [|a l IH]; simpl; [lia|].
  destruct (g a) eqn:Hg.
  - rewrite (Hgf a Hg). simpl. lia.
  - destruct (f a); simpl; lia.
Qed.

Lemma filter_length_lt {A} (f g : A → bool) (l : list A) (p : A) :
  (∀ q, g q = true → f q = true) →
  In p l → f p = true → g p = false →
  (length (List.filter g l) < length (List.filter f l))%nat.
Proof.
  intros Hgf Hin Hf Hg. induction l as [|a l IH]; simpl; [done|].
  destruct Hin as [->|Hin].
  - rewrite Hf, Hg. simpl.
    pose proof (filter_length_le f g l Hgf). lia.
  - specialize (IH Hin). destruct (g a) eqn:Hga.
    + rewrite (Hgf a Hga). simpl. lia.
    + destruct (f a); simpl; lia.
Qed.

Lemma is_free_put (b : Board) x y v q :
  getitem b x y = Ok "-" →
  is_free (put b x y v) q = true → is_free b q = true.
Proof.
  intros Hxy. destruct q as [x' y'].
  destruct (decide ((x, y) = (x', y'))) as [[= <- <-]|Hne].
  - intros _. by apply is_free_true.
  - rewrite !is_free_true. by rewrite getitem_put_ne.
Qed.

Lemma count_empty_put_le (b : Board) x y v :
  getitem b x y = Ok "-" →
  (count_empty (put b x y v) ≤ count_empty b)%nat.
Proof.
  intros Hxy. unfold count_empty, empty_cells. rewrite coords_put.
  apply filter_length_le. intros q. by apply is_free_put.
Qed.

(** Writing a symbol on a free position leaves strictly fewer free
    positions: the measure under the recursion of [minimax]. *)
Lemma count_empty_put_lt (b : Board) x y v :
  getitem b x y = Ok "-" → v ≠ "-" →
  (count_empty (put b x y v) < count_empty b)%nat.
Proof.
  intros Hxy Hv. unfold count_empty, empty_cells. rewrite coords_put.
  apply filter_length_lt with (p := (x, y)).
  - intros q. by apply is_free_put.
  - by eapply in_coords.
  - by apply is_free_true.
  - destruct (is_free (put b x y v) (x, y)) eqn:E; [|done].
    apply is_free_true in E.
    rewrite (getitem_put_eq b x y "-" v Hxy) in E. congruence.
Qed.

Lemma forallb_false {A} (f : A → bool) (l : list A) :
  forallb f l = false ↔ ∃ a, In a l ∧ f a = false.
Proof.
  induction l as [|a l IH]; simpl.
  - split; [discriminate|]. by intros (a & [] & _).
  - rewrite andb_false_iff, IH. split.
    + intros [H|(a' & Hin & H)]; eauto.
    + intros (a' & [->|Hin] & H); eauto.
Qed.

Lemma board_full_false (b : Board) :
  board_full b = false ↔ ∃ x y, getitem b x y = Ok "-".
Proof.
  unfold board_full. rewrite forallb_false. split.
  - intros (r & Hin & (c & Hinc & Hc)%forallb_false).
    apply negb_false_iff, String.eqb_eq in Hc. subst c.
    apply list_elem_of_In, list_elem_of_lookup in Hin as [x Hx].
    apply list_elem_of_In, list_elem_of_lookup in Hinc as [y Hy].
    exists x, y. apply getitem_Ok. eauto.
  - intros (x & y & (r & Hr & Hc)%getitem_Ok).
    exists r. split.
    { apply list_elem_of_In, list_elem_of_lookup. eauto. }
    apply forallb_false. exists "-". split; [|done].
    apply list_elem_of_In, list_elem_of_lookup. eauto.
Qed.

Lemma board_full_empty_cells (b : Board) :
  board_full b = true ↔ empty_cells b = [].
Proof.
  split.
  - intros Hf. destruct (empty_cells b) as [|[x y] l] eqn:E; [done|].
    assert (getitem b x y = Ok "-") as H.
    { apply in_empty_cells. rewrite E. by left. }
    assert (board_full b = false) by (apply board_full_false; eauto).
    congruence.
  - intros E. destruct (board_full b) eqn:Hf; [done|].
    apply board_full_false in Hf as (x & y & H).
    apply in_empty_cells in H. rewrite E in H. destruct H.
Qed.

(** ** The search loops *)

Lemma for_in_ext {I S} (items : list I) (f g : I → S → result S) (s : S) :
  (∀ i s, f i s = g i s) → for_in items f s = for_in items g s.
Proof.
  intros Hfg. revert s. induction items as [|i items IH]; intros s; simpl.
  - done.
  - rewrite Hfg. destruct (g i s); simpl; auto.
Qed.

(** A loop over a board that every recursive call hands back unchanged
    visits the free positions in row-major order and hands the board back
    unchanged itself. *)
Section SweepFold.
Context {A : Type}.
Variable rec : Board → result (Z * Board).
Variable mark : string.
Variable upd : nat → nat → Z → A → A.
Variable b : Board.
Variable score : nat * nat → Z.
Hypothesis rec_score : ∀ x y,
  getitem b x y = Ok "-" →
  rec (put b x y mark) = Ok (score (x, y), put b x y mark).

Lemma visit_free x y acc :
  getitem b x y = Ok "-" →
  visit rec mark upd x y (b, acc) = Ok (b, upd x y (score (x, y)) acc).
Proof.
  intros H. unfold visit. rewrite H. simpl.
  rewrite (setitem_Ok b x y "-" mark H). simpl.
  rewrite (rec_score x y H). simpl.
  rewrite (setitem_Ok _ x y mark "-") by by eapply getitem_put_eq.
  simpl. by rewrite (put_restore b x y "-" mark H).
Qed.

Lemma visit_taken x y c acc :
  getitem b x y = Ok c → c ≠ "-" →
  visit rec mark upd x y (b, acc) = Ok (b, acc).
Proof.
  intros H Hc. unfold visit. rewrite H. simpl.
  apply String.eqb_neq in Hc. by rewrite Hc.
Qed.

Lemma row_fold row r cols acc :
  b !! row = Some r →
  (∀ col, In col cols → (col < length r)%nat) →
  for_in cols (visit rec mark upd row) (b, acc)
  = Ok (b, fold_left (fold_score upd score)
                     (List.filter (is_free b) (map (pair row) cols)) acc).
Proof.
  intros Hr. revert acc. induction cols as [|col cols IH]; intros acc Hlt.
  - done.
  - destruct (lookup_lt_is_Some_2 r col) as [c Hc].
    { apply Hlt. by left. }
    assert (getitem b row col = Ok c) as Hg by (apply getitem_Ok; eauto).
    cbn [for_in map List.filter].
    destruct (String.eqb_spec c "-") as [->|Hne].
    + rewrite (visit_free row col acc Hg). cbn [bind].
      rewrite (proj2 (is_free_true b row col) Hg). cbn [fold_left].
      apply IH. intros col' ?. apply Hlt. by right.
    + rewrite (visit_taken row col c acc Hg Hne). cbn [bind].
      destruct (is_free b (row, col)) eqn:E.
      { apply is_free_true in E. congruence. }
      apply IH. intros col' ?. apply Hlt. by right.
Qed.

Lemma rows_fold rows acc :
  (∀ row, In row rows → (row < length b)%nat) →
  for_in rows (sweep_row rec mark upd) (b, acc)
  = Ok (b, fold_left (fold_score upd score)
             (List.filter (is_free b)
                (flat_map (fun row =>
                   map (pair row) (range (length (default [] (b !! row)))))
                   rows)) acc).
Proof.
  revert acc. induction rows as [|row rows IH]; intros acc Hlt.
  - done.
  - destruct (lookup_lt_is_Some_2 b row) as [r Hr].
    { apply Hlt. by left. }
    cbn [for_in flat_map]. unfold sweep_row at 1, getrow. cbn [fst].
    rewrite Hr. cbn [bind default].
    rewrite (row_fold row r (range (length r)) acc Hr).
    2:{ intros col Hin. apply in_seq in Hin. lia. }
    cbn [bind]. rewrite List.filter_app, fold_left_app.
    apply IH. intros row' ?. apply Hlt. by right.
Qed.

Lemma sweep_fold acc :
  sweep rec mark upd b acc
  = Ok (b, fold_left (fold_score upd score) (empty_cells b) acc).
Proof.
  unfold sweep, empty_cells, coords. apply rows_fold.
  intros row Hin. apply in_seq in Hin. lia.
Qed.
End SweepFold.

(** Case analysis on the call a sequence of statements starts with. *)
Ltac step_bind :=
  match goal with
  | |- context [bind ?m _] =>
      match m with
      | context [bind _ _] => fail 1
      | _ => destruct m as [?| | | | |] eqn:?; cbn [bind]; try reflexivity
      end
  end.

Lemma minimax_sweep fuel state depth max_or_min :
  minimax (S fuel) state depth max_or_min =
  ('(g_state, symb) <- game_state state ;;
   match terminal_score (board_full state) g_state symb with
   | Some v => Ok (v, state)
   | None =>
       '(state', best_score) <-
         sweep (fun st => minimax fuel st (depth + 1) (negb max_or_min))
               (if max_or_min then "O" else "X")
               (if max_or_min then keep_max else keep_min)
               state (if max_or_min then -10000 else 10000) ;;
       Ok (best_score, state')
   end).
Proof.
  cbn [minimax]. destruct (game_state state) as [[g_state symb]| | | | |];
    cbn [bind]; try reflexivity.
  destruct (terminal_score _ _ _); [reflexivity|].
  unfold sweep.
  destruct max_or_min; cbn [negb];
    (erewrite for_in_ext; [reflexivity|]);
    intros row [st best]; unfold sweep_row; cbn [fst];
    (destruct (getrow st row); cbn [bind]; try reflexivity);
    apply for_in_ext; intros col [st' best']; unfold visit;
    repeat step_bind;
    repeat match goal with
           | |- context [if ?c then _ else _] => destruct c eqn:?
           | x : _ * _ |- _ => destruct x
           end;
    cbn [bind]; try reflexivity; repeat step_bind;
    unfold keep_max, keep_min;
    repeat match goal with H : _ = _ |- _ => rewrite H end; reflexivity.
Qed.

Lemma ai_sweep fuel state player :
  ai fuel state player =
  ('(state', best) <-
     sweep (fun st => minimax fuel st 0 false) (symbol player) keep_move
           state (-10000, None) ;;
   match best.2 with
   | Some (x, y) => Ok (x, y, state')
   | None => UnboundLocalError
   end).
Proof.
  unfold ai, sweep.
  rewrite (for_in_ext _ _
             (sweep_row (fun st => minimax fuel st 0 false) (symbol player)
                        keep_move)).
  - destruct (for_in _ _ _) as [[st [best_score best_move]]| | | | |];
      reflexivity.
  - intros row [st [best_score best_move]]; unfold sweep_row; cbn [fst].
    destruct (getrow st row); cbn [bind]; try reflexivity.
    apply for_in_ext. intros col [st' [best_score' best_move']].
    unfold visit.
    repeat step_bind;
    repeat match goal with
           | |- context [if ?c then _ else _] => destruct c eqn:?
           | x : _ * _ |- _ => destruct x
           end;
    cbn [bind]; try reflexivity; repeat step_bind;
    unfold keep_move; cbn [fst];
    repeat match goal with H : _ = _ |- _ => rewrite H end; reflexivity.
Qed.

(** ** Restoration, whatever the shape of the board *)

Section SweepRestores.
Context {A : Type}.
Variable rec : Board → result (Z * Board).
Variable mark : string.
Variable upd : nat → nat → Z → A → A.
Hypothesis rec_restores : ∀ st v st', rec st = Ok (v, st') → st' = st.

Lemma visit_restores row col st acc st' acc' :
  visit rec mark upd row col (st, acc) = Ok (st', acc') → st' = st.
Proof.
  unfold visit.
  destruct (getitem st row col) as [c| | | | |] eqn:Hc; cbn [bind];
    try discriminate.
  destruct (String.eqb_spec c "-") as [->|_]; [|by intros [= <- _]].
  rewrite (setitem_Ok st row col "-" mark Hc). cbn [bind].
  destruct (rec (put st row col mark)) as [[v st1]| | | | |] eqn:Hrec;
    cbn [bind]; try discriminate.
  apply rec_restores in Hrec. subst st1.
  rewrite (setitem_Ok _ row col mark "-") by by eapply getitem_put_eq.
  cbn [bind]. intros [= <- _]. by apply put_restore.
Qed.

Lemma row_restores row cols st acc st' acc' :
  for_in cols (visit rec mark upd row) (st, acc) = Ok (st', acc') → st' = st.
Proof.
  revert acc. induction cols as [|col cols IH]; intros acc; cbn [for_in].
  - by intros [= <- _].
  - destruct (visit rec mark upd row col (st, acc)) as [[st1 acc1]| | | | |]
      eqn:Hv; cbn [bind]; try discriminate.
    apply visit_restores in Hv. subst st1. apply IH.
Qed.

Lemma sweep_row_restores row st acc st' acc' :
  sweep_row rec mark upd row (st, acc) = Ok (st', acc') → st' = st.
Proof.
  unfold sweep_row. cbn [fst].
  destruct (getrow st row); cbn [bind]; try discriminate.
  apply row_restores.
Qed.

Lemma rows_restore rows st acc st' acc' :
  for_in rows (sweep_row rec mark upd) (st, acc) = Ok (st', acc') → st' = st.
Proof.
  revert acc. induction rows as [|row rows IH]; intros acc; cbn [for_in].
  - by intros [= <- _].
  - destruct (sweep_row rec mark upd row (st, acc)) as [[st1 acc1]| | | | |]
      eqn:Hv; cbn [bind]; try discriminate.
    apply sweep_row_restores in Hv. subst st1. apply IH.
Qed.

Lemma sweep_restores st acc st' acc' :
  sweep rec mark upd st acc = Ok (st', acc') → st' = st.
Proof. apply rows_restore. Qed.
End SweepRestores.

Lemma minimax_restores fuel state depth max_or_min v state' :
  minimax fuel state depth max_or_min = Ok (v, state') → state' = state.
Proof.
  revert state depth max_or_min v state'.
  induction fuel as [|fuel IH]; intros state depth max_or_min v state';
    [discriminate|].
  rewrite minimax_sweep.
  destruct (game_state state) as [[g_state symb]| | | | |]; cbn [bind];
    try discriminate.
  destruct (terminal_score _ _ _); [by intros [= _ <-]|].
  destruct (sweep _ _ _ _ _) as [[st best]| | | | |] eqn:Hs; cbn [bind];
    try discriminate.
  intros [= _ <-]. eapply sweep_restores; [|exact Hs].
  intros st0 v0 st0'. apply IH.
Qed.

Lemma ai_restores fuel state player x y state' :
  ai fuel state player = Ok (x, y, state') → state' = state.
Proof.
  rewrite ai_sweep.
  destruct (sweep _ _ _ _ _) as [[st [best_score best_move]]| | | | |] eqn:Hs;
    cbn [bind]; try discriminate.
  cbn [snd]. destruct best_move as [[x' y']|]; [|discriminate].
  intros [= _ _ <-]. eapply sweep_restores; [|exact Hs].
  intros st0 v0 st0'. apply minimax_restores.
Qed.

(** ** [game_state] on a board of three rows of three *)

Lemma and_then_Ok x y : and_then (Ok x) (Ok y) = Ok (x && y).
Proof. by destruct x. Qed.

Lemma or_else_Ok x y : or_else (Ok x) (Ok y) = Ok (x || y).
Proof. by destruct x. Qed.

Lemma getitem_cell (b : Board) x y :
  is_3x3 b → (x < 3)%nat → (y < 3)%nat → getitem b x y = Ok (cell b x y).
Proof.
  intros (a0 & a1 & a2 & b0 & b1 & b2 & c0 & c1 & c2 & ->)%is_3x3_inv Hx Hy.
  destruct x as [|[|[|x]]]; [| | |lia];
    (destruct y as [|[|[|y]]]; [| | |lia]); reflexivity.
Qed.

Lemma cell_is_cell (b : Board) x y s :
  is_3x3 b → (x < 3)%nat → (y < 3)%nat →
  cell_is b x y s = Ok (String.eqb (cell b x y) s).
Proof. intros H Hx Hy. unfold cell_is. by rewrite getitem_cell. Qed.

Lemma line_test (b : Board) s x1 y1 x2 y2 x3 y3 :
  is_3x3 b →
  (x1 < 3)%nat → (y1 < 3)%nat → (x2 < 3)%nat → (y2 < 3)%nat →
  (x3 < 3)%nat → (y3 < 3)%nat →
  and_then (cell_is b x1 y1 s) (and_then (cell_is b x2 y2 s) (cell_is b x3 y3 s))
  = Ok (three b s ((x1, y1), (x2, y2), (x3, y3))).
Proof.
  intros. rewrite !cell_is_cell by done. rewrite !and_then_Ok.
  unfold three. cbn [fst snd]. by rewrite andb_assoc.
Qed.

Lemma game_state_at_verdict (b : Board) i :
  is_3x3 b → (i < 3)%nat → game_state_at b i = Ok (verdict_at b i).
Proof.
  intros H Hi. unfold game_state_at, verdict_at.
  rewrite !line_test by (done || lia). cbn [bind].
  repeat (destruct (three _ _ _); [reflexivity|]); reflexivity.
Qed.

Lemma game_state_3x3 (b : Board) : is_3x3 b → game_state b = Ok (verdict b).
Proof.
  intros H. unfold game_state, verdict, range. cbn [seq for_return].
  rewrite !game_state_at_verdict by (done || lia). cbn [bind].
  destruct (verdict_at b 0); [reflexivity|]. cbn [bind].
  destruct (verdict_at b 1); [reflexivity|]. cbn [bind].
  destruct (verdict_at b 2); [reflexivity|]. cbn [bind].
  rewrite !line_test by (done || lia). rewrite !or_else_Ok. cbn [bind].
  repeat (destruct (_ || _); [reflexivity|]); reflexivity.
Qed.

Lemma verdict_cases (b : Board) :
  verdict b = (true, Some "X") ∨ verdict b = (true, Some "O")
  ∨ verdict b = (false, None).
Proof.
  unfold verdict, verdict_at.
  repeat match goal with
         | |- context [if ?c then _ else _] => destruct c; auto
         end.
Qed.

(** ** Folding scores *)

Lemma fold_keep_max (score : nat * nat → Z) l acc :
  fold_left (fold_score keep_max score) l acc
  = fold_left Z.max (map score l) acc.
Proof.
  revert acc. induction l as [|p l IH]; intros acc; cbn [fold_left map].
  - done.
  - rewrite IH. f_equal. unfold fold_score, keep_max.
    destruct (Z.gtb_spec (score p) acc); lia.
Qed.

Lemma fold_keep_min (score : nat * nat → Z) l acc :
  fold_left (fold_score keep_min score) l acc
  = fold_left Z.min (map score l) acc.
Proof.
  revert acc. induction l as [|p l IH]; intros acc; cbn [fold_left map].
  - done.
  - rewrite IH. f_equal. unfold fold_score, keep_min.
    destruct (Z.ltb_spec (score p) acc); lia.
Qed.

Lemma fold_max_In l acc : In (fold_left Z.max l acc) (acc :: l).
Proof.
  revert acc. induction l as [|x l IH]; intros acc; cbn [fold_left].
  - by left.
  - destruct (IH (Z.max acc x)) as [H|H].
    + rewrite <- H. destruct (Z.max_spec acc x) as [[_ ->]|[_ ->]].
      * right. by left.
      * by left.
    + right. by right.
Qed.

Lemma fold_max_ge l acc x :
  In x (acc :: l) → x ≤ fold_left Z.max l acc.
Proof.
  revert acc x. induction l as [|y l IH]; intros acc x; cbn [fold_left].
  - intros [->|[]]. lia.
  - pose proof (IH (Z.max acc y) (Z.max acc y) (or_introl eq_refl)).
    intros [->|[->|H']]; [lia|lia|].
    apply IH. by right.
Qed.

Lemma fold_min_In l acc : In (fold_left Z.min l acc) (acc :: l).
Proof.
  revert acc. induction l as [|x l IH]; intros acc; cbn [fold_left].
  - by left.
  - destruct (IH (Z.min acc x)) as [H|H].
    + rewrite <- H. destruct (Z.min_spec acc x) as [[_ ->]|[_ ->]].
      * by left.
      * right. by left.
    + right. by right.
Qed.

Lemma fold_min_le l acc x :
  In x (acc :: l) → fold_left Z.min l acc ≤ x.
Proof.
  revert acc x. induction l as [|y l IH]; intros acc x; cbn [fold_left].
  - intros [->|[]]. lia.
  - pose proof (IH (Z.min acc y) (Z.min acc y) (or_introl eq_refl)).
    intros [->|[->|H']]; [lia|lia|].
    apply IH. by right.
Qed.

Lemma best_of_scores_max l :
  l ≠ [] → Forall is_score l → is_score (fold_left Z.max l (-10000)).
Proof.
  intros Hne Hall.
  destruct (fold_max_In l (-10000)) as [E|Hin].
  - destruct l as [|x l]; [done|].
    apply Forall_cons in Hall as [Hx _].
    pose proof (fold_max_ge (x :: l) (-10000) x) as Hge.
    rewrite <- E in Hge. unfold is_score in Hx.
    specialize (Hge (or_intror (or_introl eq_refl))). lia.
  - rewrite Forall_forall in Hall. apply Hall. by apply list_elem_of_In.
Qed.

Lemma best_of_scores_min l :
  l ≠ [] → Forall is_score l → is_score (fold_left Z.min l 10000).
Proof.
  intros Hne Hall.
  destruct (fold_min_In l 10000) as [E|Hin].
  - destruct l as [|x l]; [done|].
    apply Forall_cons in Hall as [Hx _].
    pose proof (fold_min_le (x :: l) 10000 x) as Hge.
    rewrite <- E in Hge. unfold is_score in Hx.
    specialize (Hge (or_intror (or_introl eq_refl))). lia.
  - rewrite Forall_forall in Hall. apply Hall. by apply list_elem_of_In.
Qed.

(** ** [minimax] returns, with a score, on every board of three by three *)

Lemma terminal_score_won full symb s :
  symb_is symb s = true → (s = "X" ∨ s = "O") →
  terminal_score full true symb = Some (if String.eqb s "X" then -10 else 10).
Proof.
  intros Hs Hxo. unfold terminal_score. rewrite orb_true_r. cbn [andb negb].
  destruct symb as [t|]; [|discriminate]. cbn [symb_is] in *.
  apply String.eqb_eq in Hs. subst t. by destruct Hxo as [->| ->].
Qed.

Lemma terminal_score_open full :
  terminal_score full false None = if full then Some 0 else None.
Proof. by destruct full. Qed.

Lemma fold_left_ext_in {A B} (f g : A → B → A) (l : list B) (a : A) :
  (∀ a x, In x l → f a x = g a x) → fold_left f l a = fold_left g l a.
Proof.
  revert a. induction l as [|x l IH]; intros a H; cbn [fold_left]; [done|].
  rewrite (H a x) by by left. apply IH. intros a' x' ?. apply H. by right.
Qed.

Lemma empty_cells_nonempty (b : Board) :
  board_full b = false → empty_cells b ≠ [].
Proof. intros Hf E. apply board_full_empty_cells in E. congruence. Qed.

Lemma minimax_total fuel (b : Board) depth max_or_min :
  is_3x3 b → (count_empty b < fuel)%nat →
  ∃ v, minimax fuel b depth max_or_min = Ok (v, b) ∧ is_score v.
Proof.
  revert b depth max_or_min.
  induction fuel as [|fuel IH]; intros b depth max_or_min H3 Hfuel; [lia|].
  rewrite minimax_sweep, (game_state_3x3 b H3). cbn [bind].
  destruct (verdict_cases b) as [->|[->| ->]].
  - rewrite (terminal_score_won _ _ "X") by auto.
    eexists; split; [reflexivity|]. by left.
  - rewrite (terminal_score_won _ _ "O") by auto.
    eexists; split; [reflexivity|]. by right; right.
  - rewrite terminal_score_open.
    destruct (board_full b) eqn:Hfull.
    { eexists; split; [reflexivity|]. by right; left. }
    set (mark := if max_or_min then "O" else "X").
    set (rec := fun st => minimax fuel st (depth + 1) (negb max_or_min)).
    set (score := fun p : nat * nat => score_of (rec (put b p.1 p.2 mark))).
    assert (∀ x y, getitem b x y = Ok "-" →
              rec (put b x y mark) = Ok (score (x, y), put b x y mark)
              ∧ is_score (score (x, y))) as Hrec.
    { intros x y Hxy. unfold score, rec. cbn [fst snd].
      destruct (IH (put b x y mark) (depth + 1) (negb max_or_min))
        as (v & Hv & Hs).
      - by apply is_3x3_put.
      - assert (mark ≠ "-") as Hmark by (unfold mark; by destruct max_or_min).
        pose proof (count_empty_put_lt b x y mark Hxy Hmark). lia.
      - rewrite Hv. by split. }
    rewrite (sweep_fold rec mark _ b score) by (intros; by apply Hrec).
    cbn [bind]. eexists; split; [reflexivity|].
    assert (Forall is_score (map score (empty_cells b))) as Hall.
    { apply Forall_map, Forall_forall. intros [x y] Hin%list_elem_of_In.
      by apply Hrec, in_empty_cells. }
    assert (map score (empty_cells b) ≠ []) as Hne.
    { intros E%map_eq_nil. by apply empty_cells_nonempty in E. }
    destruct max_or_min.
    + rewrite fold_keep_max. by apply best_of_scores_max.
    + rewrite fold_keep_min. by apply best_of_scores_min.
Qed.

(** The budget does not matter once it is large enough. *)
Lemma minimax_fuel fuel1 fuel2 (b : Board) depth max_or_min :
  is_3x3 b → (count_empty b < fuel1)%nat → (count_empty b < fuel2)%nat →
  minimax fuel1 b depth max_or_min = minimax fuel2 b depth max_or_min.
Proof.
  revert fuel2 b depth max_or_min.
  induction fuel1 as [|fuel1 IH]; intros fuel2 b depth max_or_min H3 H1 H2;
    [lia|].
  destruct fuel2 as [|fuel2]; [lia|].
  rewrite !minimax_sweep, (game_state_3x3 b H3). cbn [bind].
  destruct (verdict b) as [g_state symb].
  destruct (terminal_score _ _ _); [done|].
  set (mark := if max_or_min then "O" else "X").
  assert (mark ≠ "-") as Hmark by (unfold mark; by destruct max_or_min).
  set (rec1 := fun st => minimax fuel1 st (depth + 1) (negb max_or_min)).
  set (rec2 := fun st => minimax fuel2 st (depth + 1) (negb max_or_min)).
  set (score := fun p : nat * nat => score_of (rec1 (put b p.1 p.2 mark))).
  assert (∀ x y, getitem b x y = Ok "-" →
            rec1 (put b x y mark) = Ok (score (x, y), put b x y mark)) as Hrec1.
  { intros x y Hxy. unfold score, rec1. cbn [fst snd].
    destruct (minimax_total fuel1 (put b x y mark) (depth + 1)
                (negb max_or_min)) as (v & Hv & _).
    - by apply is_3x3_put.
    - pose proof (count_empty_put_lt b x y mark Hxy Hmark). lia.
    - by rewrite Hv. }
  assert (∀ x y, getitem b x y = Ok "-" →
            rec2 (put b x y mark) = Ok (score (x, y), put b x y mark)) as Hrec2.
  { intros x y Hxy. rewrite <- (Hrec1 x y Hxy). unfold rec1, rec2.
    pose proof (count_empty_put_lt b x y mark Hxy Hmark).
    symmetry. apply IH; [by apply is_3x3_put|lia|lia]. }
  rewrite (sweep_fold rec1 mark _ b score Hrec1).
  by rewrite (sweep_fold rec2 mark _ b score Hrec2).
Qed.

Lemma count_empty_3x3 (b : Board) : is_3x3 b → (count_empty b ≤ 9)%nat.
Proof.
  intros (a0 & a1 & a2 & b0 & b1 & b2 & c0 & c1 & c2 & ->)%is_3x3_inv.
  unfold count_empty, empty_cells.
  etrans; [apply List.filter_length_le|]. done.
Qed.

(** ** The choice of [ai] *)

Lemma fold_keep_move (score : nat * nat → Z) l best mv :
  (fold_left (fold_score keep_move score) l (best, mv) = (best, mv)
   ∧ ∀ q, In q l → score q ≤ best)
  ∨ (∃ p, fold_left (fold_score keep_move score) l (best, mv)
          = (score p, Some p)
          ∧ best < score p ∧ first_best score l p).
Proof.
  revert best mv. induction l as [|p l IH]; intros best mv; cbn [fold_left].
  - left. split; [done|]. by intros q [].
  - assert (fold_score keep_move score (best, mv) p
            = if score p >? best then (score p, Some p) else (best, mv)) as ->.
    { by destruct p. }
    destruct (Z.gtb_spec (score p) best) as [Hgt|Hle].
    + destruct (IH (score p) (Some p)) as [[E Hall]|(p' & E & Hlt & Hfb)].
      * right. exists p. split; [done|]. split; [lia|].
        exists [], l. split; [done|]. split; [by intros q []|done].
      * right. exists p'. split; [done|]. split; [lia|].
        destruct Hfb as (l1 & l2 & -> & H1 & H2).
        exists (p :: l1), l2. split; [done|]. split; [|done].
        intros q [<-|Hq]; [lia|by apply H1].
    + destruct (IH best mv) as [[E Hall]|(p' & E & Hlt & Hfb)].
      * left. split; [done|]. intros q [<-|Hq]; [lia|by apply Hall].
      * right. exists p'. split; [done|]. split; [done|].
        destruct Hfb as (l1 & l2 & -> & H1 & H2).
        exists (p :: l1), l2. split; [done|]. split; [|done].
        intros q [<-|Hq]; [lia|by apply H1].
Qed.

Lemma move_score_spec fuel (b : Board) player x y :
  is_3x3 b → (count_empty b < fuel)%nat → getitem b x y = Ok "-" →
  minimax fuel (put b x y (symbol player)) 0 false
  = Ok (move_score fuel b player (x, y), put b x y (symbol player))
  ∧ is_score (move_score fuel b player (x, y)).
Proof.
  intros H3 Hfuel Hxy. unfold move_score. cbn [fst snd].
  destruct (minimax_total fuel (put b x y (symbol player)) 0 false)
    as (v & Hv & Hs).
  - by apply is_3x3_put.
  - pose proof (count_empty_put_le b x y (symbol player) Hxy). lia.
  - rewrite Hv. by split.
Qed.

Lemma ai_first_best fuel (b : Board) player :
  is_3x3 b → board_full b = false → (count_empty b < fuel)%nat →
  ∃ x y, ai fuel b player = Ok (x, y, b)
         ∧ first_best (move_score fuel b player) (empty_cells b) (x, y).
Proof.
  intros H3 Hfull Hfuel. rewrite ai_sweep.
  rewrite (sweep_fold _ (symbol player) _ b (move_score fuel b player)).
  2:{ intros x y Hxy. by apply move_score_spec. }
  cbn [bind].
  destruct (fold_keep_move (move_score fuel b player) (empty_cells b)
              (-10000) None) as [[_ Hall]|([x y] & -> & _ & Hfb)].
  - destruct (empty_cells b) as [|[x y] l] eqn:E.
    { by apply empty_cells_nonempty in E. }
    assert (getitem b x y = Ok "-") as Hxy.
    { apply in_empty_cells. rewrite E. by left. }
    destruct (move_score_spec fuel b player x y H3 Hfuel Hxy) as [_ Hs].
    specialize (Hall (x, y) (or_introl eq_refl)).
    unfold is_score in Hs. lia.
  - cbn [snd]. by exists x, y.
Qed.

Lemma first_best_In score l p : first_best score l p → In p l.
Proof. intros (l1 & l2 & -> & _). apply in_elt. Qed.

Lemma getitem_3x3_range (b : Board) x y c :
  is_3x3 b → getitem b x y = Ok c → (x < 3)%nat ∧ (y < 3)%nat.
Proof.
  intros [Hl Hr] (r & Hx & Hy)%getitem_Ok.
  pose proof (Forall_lookup_1 _ _ _ _ Hr Hx) as Hlen. cbn beta in Hlen.
  apply lookup_lt_Some in Hx, Hy. lia.
Qed.

Lemma ai_fuel fuel1 fuel2 (b : Board) player :
  is_3x3 b → (count_empty b < fuel1)%nat → (count_empty b < fuel2)%nat →
  ai fuel1 b player = ai fuel2 b player.
Proof.
  intros H3 H1 H2. rewrite !ai_sweep.
  rewrite (sweep_fold _ (symbol player) _ b (move_score fuel1 b player)).
  2:{ intros x y Hxy. by apply move_score_spec. }
  rewrite (sweep_fold _ (symbol player) _ b (move_score fuel1 b player)).
  2:{ intros x y Hxy.
      pose proof (count_empty_put_le b x y (symbol player) Hxy).
      rewrite (minimax_fuel fuel2 fuel1) by (by apply is_3x3_put || lia).
      by apply move_score_spec. }
  done.
Qed.

(** On a full board no position is scored, whatever the shape of the board
    and whatever the recursive call would do. *)
Lemma sweep_full {A} rec mark (upd : nat → nat → Z → A → A) (b : Board) acc :
  board_full b = true → sweep rec mark upd b acc = Ok (b, acc).
Proof.
  intros Hfull.
  rewrite (sweep_fold rec mark upd b (fun _ => 0)).
  - by rewrite (proj1 (board_full_empty_cells b) Hfull).
  - intros x y Hxy.
    assert (board_full b = false) by (apply board_full_false; eauto).
    congruence.
Qed.

(** ** Winning lines *)

Lemma lines_in_range l :
  In l lines →
  (l.1.1.1 < 3 ∧ l.1.1.2 < 3 ∧ l.1.2.1 < 3 ∧ l.1.2.2 < 3
   ∧ l.2.1 < 3 ∧ l.2.2 < 3)%nat.
Proof.
  unfold lines. cbn [In].
  intros H; repeat (destruct H as [<-|H]; [cbn; lia|]); destruct H.
Qed.

Lemma three_line_filled (b : Board) s l :
  is_3x3 b → In l lines → three b s l = true ↔ line_filled b s l.
Proof.
  intros H3 Hl. apply lines_in_range in Hl.
  destruct l as [[[x1 y1] [x2 y2]] [x3 y3]]. cbn [fst snd] in Hl.
  unfold three, line_filled. cbn [fst snd].
  rewrite !andb_true_iff, !String.eqb_eq.
  rewrite !getitem_cell by (done || lia).
  split.
  - intros [[-> ->] ->]. done.
  - intros ([= ->] & [= ->] & [= ->]). done.
Qed.

Lemma no_line_three (b : Board) s l :
  is_3x3 b → ¬ has_line b s → In l lines → three b s l = false.
Proof.
  intros H3 Hno Hl. destruct (three b s l) eqn:E; [|done].
  destruct Hno. exists l. split; [by apply list_elem_of_In|].
  by apply three_line_filled.
Qed.

Lemma has_line_three (b : Board) s :
  is_3x3 b → has_line b s → ∃ l, In l lines ∧ three b s l = true.
Proof.
  intros H3 (l & Hl%list_elem_of_In & Hf). exists l. split; [done|].
  by apply three_line_filled.
Qed.

Ltac in_lines := unfold lines; cbn [In]; tauto.

Lemma verdict_no_line (b : Board) :
  is_3x3 b → ¬ has_line b "X" → ¬ has_line b "O" → verdict b = (false, None).
Proof.
  intros H3 HX HO. unfold verdict, verdict_at.
  rewrite !(no_line_three b "X") by (done || in_lines).
  rewrite !(no_line_three b "O") by (done || in_lines).
  done.
Qed.

Lemma verdict_line (b : Board) s t :
  is_3x3 b → (s = "X" ∧ t = "O" ∨ s = "O" ∧ t = "X") →
  has_line b s → ¬ has_line b t → verdict b = (true, Some s).
Proof.
  intros H3 Hst (l & Hl & Hs)%has_line_three Ht; [|done].
  unfold verdict, verdict_at.
  destruct Hst as [[-> ->]|[-> ->]];
    rewrite ?(no_line_three b "O") by (done || in_lines);
    rewrite ?(no_line_three b "X") by (done || in_lines);
    unfold lines in Hl; cbn [In] in Hl;
    repeat match goal with
           | |- context [if three b ?s ?l then _ else _] =>
               destruct (three b s l) eqn:?; [reflexivity|]
           | |- context [three b ?s ?l || _] =>
               destruct (three b s l) eqn:?; [reflexivity|]
           | |- context [false || three b ?s ?l] =>
               destruct (three b s l) eqn:?; [reflexivity|]
           end;
    repeat (destruct Hl as [<-|Hl]; [congruence|]); destruct Hl.
Qed.

(** ** A turn of the game *)

Lemma moves_in_range move :
  0 < move < 10 → ∃ x y, moves move = Ok (x, y) ∧ (x < 3)%nat ∧ (y < 3)%nat.
Proof.
  intros H.
  assert (move = 1 ∨ move = 2 ∨ move = 3 ∨ move = 4 ∨ move = 5 ∨ move = 6
          ∨ move = 7 ∨ move = 8 ∨ move = 9) as Hm by lia.
  repeat (destruct Hm as [->|Hm]; [do 2 eexists; split; [reflexivity|lia]|]).
  subst. do 2 eexists; split; [reflexivity|lia].
Qed.

Lemma choose_position_free (b : Board) inputs :
  is_3x3 b →
  choose_position b inputs = EOFError
  ∨ ∃ x y rest, choose_position b inputs = Ok (x, y, rest)
                ∧ getitem b x y = Ok "-".
Proof.
  intros H3. induction inputs as [|move inputs IH]; cbn [choose_position].
  - by left.
  - destruct (Z.ltb_spec move 10); cbn [andb]; [|done].
    destruct (Z.gtb_spec move 0); [|done].
    destruct (moves_in_range move) as (x & y & -> & Hx & Hy); [lia|].
    cbn [bind]. unfold check_pos. rewrite (getitem_cell b x y) by done.
    cbn [bind]. destruct (String.eqb_spec (cell b x y) "-") as [E|_]; [|done].
    right. exists x, y, inputs. split; [done|].
    by rewrite (getitem_cell b x y), E.
Qed.

(** Whoever plays, a turn writes the player's symbol on a free position,
    unless the input ends. *)
Lemma make_play_free fuel (b : Board) player inputs :
  is_3x3 b → board_full b = false → (count_empty b < fuel)%nat →
  make_play fuel b player inputs = EOFError
  ∨ ∃ x y rest, make_play fuel b player inputs
                = Ok (put b x y (symbol player), rest)
                ∧ getitem b x y = Ok "-".
Proof.
  intros H3 Hfull Hfuel. unfold make_play, set_player.
  destruct (String.eqb (name player) "Bot").
  - destruct (ai_first_best fuel b player H3 Hfull Hfuel)
      as (x & y & -> & Hxy%first_best_In%in_empty_cells).
    cbn [bind]. rewrite (setitem_Ok b x y "-" _ Hxy). cbn [bind].
    right. by exists x, y, inputs.
  - destruct (choose_position_free b inputs H3)
      as [->|(x & y & rest & -> & Hxy)]; [by left|].
    cbn [bind]. rewrite (setitem_Ok b x y "-" _ Hxy). cbn [bind].
    right. by exists x, y, rest.
Qed.

(** The turn of the bot is the move [ai] returns. *)
Lemma make_play_bot fuel (b : Board) inputs :
  make_play fuel b bot inputs
  = ('(x, y, b1) <- ai fuel b bot ;;
     b2 <- setitem b1 x y "O" ;; Ok (b2, inputs)).
Proof.
  unfold make_play, set_player. cbn.
  destruct (ai fuel b bot) as [[[x y] b1]| | | | |]; reflexivity.
Qed.

Lemma count_empty_pos (b : Board) :
  board_full b = false → (0 < count_empty b)%nat.
Proof.
  intros Hf%empty_cells_nonempty. unfold count_empty.
  destruct (empty_cells b); [done|]. cbn. lia.
Qed.

(** What [minimax] returns on a board that [game_state] reports as won, and
    on a full board that it reports as not won: the terminal test comes
    before the layers. *)
Lemma minimax_won fuel (state : Board) depth max_or_min s :
  is_3x3 state → verdict state = (true, Some s) → s = "X" ∨ s = "O" →
  minimax (S fuel) state depth max_or_min
  = Ok (if String.eqb s "X" then -10 else 10, state).
Proof.
  intros H3 E Hs. rewrite minimax_sweep, (game_state_3x3 state H3), E.
  cbn [bind]. rewrite (terminal_score_won _ _ s); [done| |done].
  apply String.eqb_refl.
Qed.

Lemma minimax_full_draw fuel (state : Board) depth max_or_min :
  is_3x3 state → verdict state = (false, None) → board_full state = true →
  minimax (S fuel) state depth max_or_min = Ok (0, state).
Proof.
  intros H3 E Hf. rewrite minimax_sweep, (game_state_3x3 state H3), E.
  cbn [bind]. by rewrite terminal_score_open, Hf.
Qed.

(** ** The value of a board *)

Lemma sweep_ext {A} rec1 rec2 mark (upd : nat → nat → Z → A → A)
    (b : Board) acc :
  (∀ st, rec1 st = rec2 st) →
  sweep rec1 mark upd b acc = sweep rec2 mark upd b acc.
Proof.
  intros Hrec. unfold sweep. apply for_in_ext. intros row s.
  unfold sweep_row. destruct (getrow s.1 row); cbn [bind]; try reflexivity.
  apply for_in_ext. intros col [st acc0]. unfold visit.
  destruct (getitem st row col) as [c| | | | |]; cbn [bind]; try reflexivity.
  destruct (String.eqb c "-"); [|reflexivity].
  destruct (setitem st row col mark); cbn [bind]; try reflexivity.
  by rewrite Hrec.
Qed.

(** The depth is passed along and never looked at. *)
Lemma minimax_depth fuel (b : Board) depth depth' max_or_min :
  minimax fuel b depth max_or_min = minimax fuel b depth' max_or_min.
Proof.
  revert b depth depth' max_or_min.
  induction fuel as [|fuel IH]; intros b depth depth' max_or_min; [done|].
  rewrite !minimax_sweep.
  destruct (game_state b) as [[g_state symb]| | | | |]; cbn [bind];
    try reflexivity.
  destruct (terminal_score _ _ _); [reflexivity|].
  rewrite (sweep_ext
             (fun st => minimax fuel st (depth + 1) (negb max_or_min))
             (fun st => minimax fuel st (depth' + 1) (negb max_or_min)));
    [reflexivity|].
  intros st. apply IH.
Qed.

Lemma minimax_value fuel (b : Board) depth max_or_min :
  is_3x3 b → (count_empty b < fuel)%nat →
  minimax fuel b depth max_or_min = Ok (value fuel b max_or_min, b)
  ∧ is_score (value fuel b max_or_min).
Proof.
  intros H3 Hfuel. unfold value.
  rewrite (minimax_depth fuel b depth 0).
  destruct (minimax_total fuel b 0 max_or_min H3 Hfuel) as (v & -> & Hv).
  done.
Qed.

(** On a board where the game goes on, the value is the largest value of
    the boards after a move of ['O'] in the maximizing layer, the smallest
    value of the boards after a move of ['X'] in the minimizing layer. *)
Lemma value_layer fuel (b : Board) max_or_min :
  is_3x3 b → verdict b = (false, None) → board_full b = false →
  (count_empty b < fuel)%nat →
  value fuel b max_or_min
  = fold_left (if max_or_min then Z.max else Z.min)
      (map (fun p => value fuel (put b p.1 p.2 (if max_or_min then "O" else "X"))
                       (negb max_or_min))
           (empty_cells b))
      (if max_or_min then -10000 else 10000).
Proof.
  intros H3 Hv Hfull Hfuel. destruct fuel as [|fuel]; [lia|].
  unfold value at 1.
  rewrite minimax_sweep, (game_state_3x3 b H3), Hv. cbn [bind].
  rewrite terminal_score_open, Hfull.
  set (mark := if max_or_min then "O" else "X").
  assert (mark ≠ "-") as Hmark by (unfold mark; by destruct max_or_min).
  rewrite (sweep_fold _ mark _ b
             (fun p => value (S fuel) (put b p.1 p.2 mark) (negb max_or_min))).
  - cbn [bind score_of].
    destruct max_or_min; [apply fold_keep_max|apply fold_keep_min].
  - intros x y Hxy. cbn [fst snd].
    pose proof (count_empty_put_lt b x y mark Hxy Hmark).
    rewrite (minimax_fuel fuel (S fuel)) by (by apply is_3x3_put || lia).
    apply minimax_value; [by apply is_3x3_put|lia].
Qed.

Lemma value_won fuel (b : Board) max_or_min s :
  is_3x3 b → (0 < fuel)%nat → verdict b = (true, Some s) → s = "X" ∨ s = "O" →
  value fuel b max_or_min = if String.eqb s "X" then -10 else 10.
Proof.
  intros H3 Hfuel E Hs. destruct fuel as [|fuel]; [lia|].
  unfold value. by rewrite (minimax_won fuel b 0 max_or_min s).
Qed.

Lemma value_full fuel (b : Board) max_or_min :
  is_3x3 b → (0 < fuel)%nat → verdict b = (false, None) →
  board_full b = true → value fuel b max_or_min = 0.
Proof.
  intros H3 Hfuel E Hf. destruct fuel as [|fuel]; [lia|].
  unfold value. by rewrite (minimax_full_draw fuel b 0 max_or_min).
Qed.

(** A strategy found by [holds_draw] bounds the value from below. *)
Lemma holds_draw_value n :
  ∀ max_or_min (b : Board) fuel,
    is_3x3 b → (count_empty b < fuel)%nat →
    holds_draw n max_or_min b = true → 0 ≤ value fuel b max_or_min.
Proof.
  induction n as [|n IH]; intros max_or_min b fuel H3 Hfuel; [discriminate|].
  cbn [holds_draw]. rewrite (game_state_3x3 b H3).
  destruct (verdict_cases b) as [E|[E|E]]; rewrite E.
  - discriminate.
  - intros _. rewrite (value_won fuel b _ "O") by (auto || lia). done.
  - destruct (board_full b) eqn:Hfull.
    { intros _. rewrite value_full by (auto || lia). done. }
    rewrite (value_layer fuel b max_or_min H3 E Hfull Hfuel).
    destruct max_or_min; cbn [negb].
    + intros ([x y] & Hin & Hd)%existsb_exists. cbn [fst snd] in Hd.
      apply in_empty_cells in Hin as Hxy.
      pose proof (count_empty_put_lt b x y "O" Hxy) as Hlt.
      etrans; [apply (IH false (put b x y "O") fuel)|]; try done.
      * by apply is_3x3_put.
      * assert ("O" ≠ "-") by done. specialize (Hlt H). lia.
      * apply fold_max_ge. right.
        apply (in_map (fun p => value fuel (put b p.1 p.2 "O") false)
                 _ (x, y) Hin).
    + intros Hall. rewrite forallb_forall in Hall.
      destruct (fold_min_In
                  (map (fun p => value fuel (put b p.1 p.2 "X") true)
                       (empty_cells b)) 10000) as [<-|Hin]; [lia|].
      apply in_map_iff in Hin as ([x y] & <- & Hin). cbn [fst snd].
      apply in_empty_cells in Hin as Hxy.
      pose proof (count_empty_put_lt b x y "X" Hxy) as Hlt.
      apply (IH true (put b x y "X") fuel).
      * by apply is_3x3_put.
      * assert ("X" ≠ "-") by done. specialize (Hlt H). lia.
      * apply (Hall (x, y) Hin).
Qed.

(** The empty board holds a draw for ['O'], whoever moves first. *)
Lemma holds_draw_from_start :
  holds_draw 10 true new_board = true ∧ holds_draw 10 false new_board = true.
Proof. split; reflexivity. Qed.

(** The move of the bot keeps a value that is not negative; so does every
    move of the person. *)
Lemma bot_move_keeps_value fuel (b : Board) x y :
  is_3x3 b → verdict b = (false, None) → board_full b = false →
  (count_empty b < fuel)%nat →
  first_best (move_score fuel b bot) (empty_cells b) (x, y) →
  0 ≤ value fuel b true → 0 ≤ value fuel (put b x y "O") false.
Proof.
  intros H3 E Hfull Hfuel Hfb.
  rewrite (value_layer fuel b true H3 E Hfull Hfuel). cbn [negb].
  change (value fuel (put b x y "O") false)
    with (move_score fuel b bot (x, y)).
  change (fun p : nat * nat => value fuel (put b p.1 p.2 "O") false)
    with (move_score fuel b bot).
  destruct (fold_max_In (map (move_score fuel b bot) (empty_cells b))
              (-10000)) as [<-|Hin]; [lia|].
  apply in_map_iff in Hin as (q & <- & Hq). intros Hge.
  destruct Hfb as (l1 & l2 & El & H1 & H2). rewrite El in Hq.
  apply in_app_or in Hq as [Hq|[<-|Hq]].
  - specialize (H1 q Hq). lia.
  - done.
  - specialize (H2 q Hq). lia.
Qed.

Lemma person_move_keeps_value fuel (b : Board) x y :
  is_3x3 b → verdict b = (false, None) → board_full b = false →
  (count_empty b < fuel)%nat → getitem b x y = Ok "-" →
  0 ≤ value fuel b false → 0 ≤ value fuel (put b x y "X") true.
Proof.
  intros H3 E Hfull Hfuel Hxy.
  rewrite (value_layer fuel b false H3 E Hfull Hfuel). cbn [negb].
  intros Hge. etrans; [exact Hge|].
  apply fold_min_le. right.
  apply (in_map (fun p => value fuel (put b p.1 p.2 "X") true) _ (x, y)).
  by apply in_empty_cells.
Qed.

(** ** A move of the person cannot complete a line of ['O'] *)

Lemma verdict_won_has_line (b : Board) s :
  is_3x3 b → verdict b = (true, Some s) → has_line b s.
Proof.
  intros H3 E. unfold verdict, verdict_at in E.
  repeat match type of E with
         | context [three b ?t ?l] =>
             destruct (three b t l) eqn:?; cbn [orb] in E
         end;
    try discriminate;
    injection E as <-;
    match goal with
    | H : three b ?t ?l = true |- has_line b ?t =>
        exists l; split;
        [apply list_elem_of_In; in_lines
        |apply three_line_filled; [done|in_lines|done]]
    end.
Qed.

Lemma has_line_verdict (b : Board) s :
  is_3x3 b → s = "X" ∨ s = "O" → has_line b s → verdict b ≠ (false, None).
Proof.
  intros H3 Hs (l & Hl & Ht)%has_line_three; [|done].
  unfold verdict, verdict_at. unfold lines in Hl. cbn [In] in Hl.
  repeat match goal with
         | |- context [three b ?t ?l] =>
             destruct (three b t l) eqn:?; cbn [orb]; [discriminate|]
         end.
  destruct Hs as [-> | ->];
    repeat (destruct Hl as [<-|Hl]; [congruence|]); destruct Hl.
Qed.

Lemma getitem_put_other (b : Board) x y c mark x' y' s :
  getitem b x y = Ok c → s ≠ mark →
  getitem (put b x y mark) x' y' = Ok s → getitem b x' y' = Ok s.
Proof.
  intros Hxy Hs. destruct (decide ((x, y) = (x', y'))) as [[= <- <-]|Hne].
  - rewrite (getitem_put_eq b x y c mark Hxy). congruence.
  - by rewrite getitem_put_ne.
Qed.

Lemma has_line_put_other (b : Board) x y c mark s :
  getitem b x y = Ok c → s ≠ mark →
  has_line (put b x y mark) s → has_line b s.
Proof.
  intros Hxy Hs ([[p q] r] & Hl & H1 & H2 & H3). exists (p, q, r).
  split; [done|]. repeat split; by eapply getitem_put_other.
Qed.

Lemma person_move_no_O_line (b : Board) x y :
  is_3x3 b → verdict b = (false, None) → getitem b x y = Ok "-" →
  verdict (put b x y "X") ≠ (true, Some "O").
Proof.
  intros H3 E Hxy E'.
  apply verdict_won_has_line in E'; [|by apply is_3x3_put].
  apply (has_line_put_other b x y "-" "X" "O") in E'; [|done|done].
  by apply (has_line_verdict b "O") in E'; auto.
Qed.

(** ** The game loop *)

Lemma game_loop_safe rounds :
  ∀ fuel p1 turn (b : Board) inputs,
    is_3x3 b → verdict b = (false, None) → board_full b = false →
    symbol p1 = "X" → turn = 1 ∨ turn = -1 →
    0 ≤ value fuel b (negb (turn =? 1)) →
    (count_empty b ≤ rounds)%nat → (count_empty b < fuel)%nat →
    bot_not_beaten (game_loop rounds fuel p1 bot turn b inputs).
Proof.
  induction rounds as [|rounds IH];
    intros fuel p1 turn b inputs H3 Hv Hfull Hp1 Hturn Hval Hrounds Hfuel.
  { pose proof (count_empty_pos b Hfull). lia. }
  cbn [game_loop].
  assert (∀ x y mark rest,
            getitem b x y = Ok "-" → mark = (if turn =? 1 then "X" else "O") →
            0 ≤ value fuel (put b x y mark) (negb (turn * -1 =? 1)) →
            bot_not_beaten
              ('(g_state, symb) <- game_state (put b x y mark) ;;
               if g_state
               then Ok (HasWon (if turn =? 1 then p1 else bot), put b x y mark)
               else if board_full (put b x y mark)
                    then Ok (EndedAsDraw, put b x y mark)
                    else game_loop rounds fuel p1 bot (turn * -1)
                           (put b x y mark) rest))
    as Hnext.
  { intros x y mark rest Hxy Hmark Hval'.
    assert (mark ≠ "-") as Hne.
    { rewrite Hmark. by destruct (turn =? 1). }
    assert (is_3x3 (put b x y mark)) as H3' by by apply is_3x3_put.
    pose proof (count_empty_put_lt b x y mark Hxy Hne) as Hlt.
    rewrite (game_state_3x3 _ H3'). cbn [bind].
    destruct (verdict_cases (put b x y mark)) as [E|[E|E]]; rewrite E.
    - rewrite (value_won fuel _ _ "X") in Hval' by (auto || lia).
      cbn in Hval'. lia.
    - destruct Hturn as [-> | ->]; cbn in Hmark; subst mark.
      + by apply person_move_no_O_line in E.
      + change (-1 =? 1) with false. unfold bot_not_beaten. cbv iota beta.
        by rewrite (game_state_3x3 _ H3'), E.
    - destruct (board_full (put b x y mark)) eqn:Hf.
      + unfold bot_not_beaten. cbv iota beta.
        by rewrite (game_state_3x3 _ H3'), E.
      + apply IH; try done; lia. }
  destruct Hturn as [-> | ->].
  - (* the person's turn *)
    change (1 =? 1) with true in *. cbn [negb] in Hval.
    destruct (make_play_free fuel b p1 inputs H3 Hfull Hfuel)
      as [->|(x & y & rest & -> & Hxy)]; [done|].
    cbn [bind]. rewrite Hp1. apply Hnext; [done|done|].
    change (negb (1 * -1 =? 1)) with true.
    by apply person_move_keeps_value.
  - (* the bot's turn *)
    change (-1 =? 1) with false in *. cbn [negb] in Hval.
    rewrite make_play_bot.
    destruct (ai_first_best fuel b bot H3 Hfull Hfuel)
      as (x & y & -> & Hfb).
    pose proof (proj1 (in_empty_cells b x y) (first_best_In _ _ _ Hfb))
      as Hxy.
    cbn [bind]. rewrite (setitem_Ok b x y "-" "O" Hxy). cbn [bind].
    apply Hnext; [done|done|].
    change (negb (-1 * -1 =? 1)) with false.
    by apply bot_move_keeps_value.
Qed.

(** ** The input does not run out *)

Lemma supply_app k l l2 : supply k l2 → supply k (l ++ l2)%list.
Proof.
  destruct 1 as [l2|k l1 l2 Hall Hs]; [constructor|].
  rewrite app_assoc. constructor; [|done].
  intros m Hm. apply in_or_app. right. by apply Hall.
Qed.

Lemma supply_pred k l : supply (S k) l → supply k l.
Proof. inversion 1; subst. by apply supply_app. Qed.

Lemma supply_le k k' l : (k' ≤ k)%nat → supply k l → supply k' l.
Proof.
  induction 1 as [|k Hle IH]; [done|]. intros Hs. by apply IH, supply_pred.
Qed.

Lemma moves_onto x y :
  (x < 3)%nat → (y < 3)%nat → ∃ m, 0 < m < 10 ∧ moves m = Ok (x, y).
Proof.
  intros Hx Hy. exists (Z.of_nat (3 * x + y + 1)). split; [lia|].
  destruct x as [|[|[|x]]]; [| | |lia];
    (destruct y as [|[|[|y]]]; [| | |lia]); reflexivity.
Qed.

Lemma choose_position_app (b : Board) l1 l2 m x y :
  is_3x3 b → In m l1 → 0 < m < 10 → moves m = Ok (x, y) →
  getitem b x y = Ok "-" →
  ∃ x' y' l1', choose_position b (l1 ++ l2) = Ok (x', y', (l1' ++ l2)%list)
               ∧ getitem b x' y' = Ok "-".
Proof.
  intros H3 Hin Hm Hmv Hxy.
  induction l1 as [|a l1 IH]; [destruct Hin|].
  cbn [app choose_position].
  destruct (Z.ltb_spec a 10) as [Ha1|Ha1]; cbn [andb].
  2:{ destruct Hin as [->|Hin]; [lia|]. by apply IH. }
  destruct (Z.gtb_spec a 0) as [Ha0|Ha0].
  2:{ destruct Hin as [->|Hin]; [lia|]. by apply IH. }
  destruct (moves_in_range a) as (xa & ya & Hmva & Hxa & Hya); [lia|].
  rewrite Hmva. cbn [bind]. unfold check_pos.
  rewrite (getitem_cell b xa ya) by done. cbn [bind].
  destruct (String.eqb_spec (cell b xa ya) "-") as [E|Hne].
  - exists xa, ya, l1. split; [done|].
    by rewrite (getitem_cell b xa ya), E.
  - destruct Hin as [->|Hin]; [|by apply IH].
    rewrite Hmv in Hmva. injection Hmva as <- <-.
    rewrite (getitem_cell b x y) in Hxy by done. congruence.
Qed.

Lemma choose_position_supply (b : Board) inputs k :
  is_3x3 b → board_full b = false → supply (S k) inputs →
  ∃ x y rest, choose_position b inputs = Ok (x, y, rest)
              ∧ getitem b x y = Ok "-" ∧ supply k rest.
Proof.
  intros H3 (x & y & Hxy)%board_full_false Hs.
  inversion Hs as [|k' l1 l2 Hall Hs' Ek El]; subst.
  destruct (getitem_3x3_range b x y "-" H3 Hxy) as [Hx Hy].
  destruct (moves_onto x y Hx Hy) as (m & Hm & Hmv).
  destruct (choose_position_app b l1 l2 m x y H3 (Hall m Hm) Hm Hmv Hxy)
    as (x' & y' & l1' & -> & Hxy').
  exists x', y', (l1' ++ l2)%list. split; [done|]. split; [done|].
  by apply supply_app.
Qed.

Lemma make_play_supply fuel (b : Board) player inputs k :
  is_3x3 b → board_full b = false → (count_empty b < fuel)%nat →
  supply (S k) inputs →
  ∃ x y rest, make_play fuel b player inputs
              = Ok (put b x y (symbol player), rest)
              ∧ getitem b x y = Ok "-" ∧ supply k rest.
Proof.
  intros H3 Hfull Hfuel Hs. unfold make_play, set_player.
  destruct (String.eqb (name player) "Bot").
  - destruct (ai_first_best fuel b player H3 Hfull Hfuel)
      as (x & y & -> & Hxy%first_best_In%in_empty_cells).
    cbn [bind]. rewrite (setitem_Ok b x y "-" _ Hxy). cbn [bind].
    exists x, y, inputs. split; [done|]. split; [done|].
    by apply supply_pred.
  - destruct (choose_position_supply b inputs k H3 Hfull Hs)
      as (x & y & rest & -> & Hxy & Hs').
    cbn [bind]. rewrite (setitem_Ok b x y "-" _ Hxy). cbn [bind].
    by exists x, y, rest.
Qed.

(** With enough input the main loop ends with an announcement. *)
Lemma game_loop_finishes rounds :
  ∀ fuel p1 p2 turn (b : Board) inputs,
    is_3x3 b → board_full b = false →
    symbol p1 ≠ "-" → symbol p2 ≠ "-" →
    (count_empty b ≤ rounds)%nat → (count_empty b < fuel)%nat →
    supply (count_empty b) inputs →
    ∃ a b', game_loop rounds fuel p1 p2 turn b inputs = Ok (a, b').
Proof.
  induction rounds as [|rounds IH];
    intros fuel p1 p2 turn b inputs H3 Hfull Hp1 Hp2 Hrounds Hfuel Hs.
  { pose proof (count_empty_pos b Hfull). lia. }
  cbn [game_loop].
  set (player := if turn =? 1 then p1 else p2).
  assert (symbol player ≠ "-") as Hp by (unfold player; by destruct (turn =? 1)).
  pose proof (count_empty_pos b Hfull) as Hpos.
  destruct (count_empty b) as [|k] eqn:Ek; [lia|].
  destruct (make_play_supply fuel b player inputs k H3 Hfull)
    as (x & y & rest & -> & Hxy & Hs'); [lia|done|].
  cbn [bind].
  assert (is_3x3 (put b x y (symbol player))) as H3' by by apply is_3x3_put.
  pose proof (count_empty_put_lt b x y (symbol player) Hxy Hp) as Hlt.
  rewrite (game_state_3x3 _ H3'). cbn [bind].
  destruct (verdict (put b x y (symbol player))) as [[|] symb]; [by eauto|].
  destruct (board_full (put b x y (symbol player))) eqn:Hf; [by eauto|].
  apply IH; try done; try lia.
  apply (supply_le k); [lia|done].
Qed.

Lemma has_all_numbers : has_all [1; 2; 3; 4; 5; 6; 7; 8; 9].
Proof. intros m Hm. cbn [In]. lia. Qed.

Lemma supply_patient_input : supply 9 patient_input.
Proof.
  unfold patient_input. cbn [replicate concat].
  repeat (apply supply_S; [exact has_all_numbers|]). apply supply_O.
Qed.

(** A game that is played to its end: on the board O O - / X X - / - - -
    with the bot to move, the bot completes its row and is announced as the
    winner. *)
Example bot_takes_the_win :
  game_loop 9 10 {| name := "Ann"; symbol := "X" |} bot (-1) top_row_open []
  = Ok (HasWon bot, put top_row_open 0 2 "O").
Proof. reflexivity. Qed.

(** * The properties *)

(** C1. Perfect play, no loss.  A game of [main] against the bot starts on
    the empty board, the bot (['O']) plays the position [ai] returns, the
    person (['X']) plays whatever free positions the input names, and either
    side moves first ([rand_gt_half]).  Whatever the input, the loop never
    announces the person as the winner and never fails: it ends with the
    bot announced as winner on a board ['O'] has won, or with a draw on a
    full board nobody has won, or the input of the person ends before the
    game does; and when the input keeps naming positions the game does end,
    in a draw or a win of the bot.  Nine rounds and a recursion budget of
    ten always suffice. *)
Theorem perfect_play rounds fuel person rand_gt_half inputs :
  (9 ≤ rounds)%nat → (10 ≤ fuel)%nat →
  bot_not_beaten (single_player rounds fuel person rand_gt_half inputs)
  ∧ (supply 9 inputs →
     ∃ a b, single_player rounds fuel person rand_gt_half inputs = Ok (a, b)).
Proof.
  intros Hrounds Hfuel. unfold single_player.
  destruct holds_draw_from_start as [Hbot Hperson].
  assert (count_empty new_board = 9%nat) as E9 by reflexivity.
  split.
  - apply game_loop_safe.
    + apply is_3x3_grid.
    + reflexivity.
    + reflexivity.
    + reflexivity.
    + destruct rand_gt_half; auto.
    + destruct rand_gt_half.
      * apply (holds_draw_value 10); [apply is_3x3_grid|lia|exact Hperson].
      * apply (holds_draw_value 10); [apply is_3x3_grid|lia|exact Hbot].
    + lia.
    + lia.
  - intros Hs. apply game_loop_finishes.
    + apply is_3x3_grid.
    + reflexivity.
    + discriminate.
    + discriminate.
    + lia.
    + lia.
    + by rewrite E9.
Qed.

Lemma perfect_play_witness :
  bot_not_beaten (single_player 9 10 "Ann" true patient_input)
  ∧ ∃ a b, single_player 9 10 "Ann" true patient_input = Ok (a, b).
Proof.
  destruct (perfect_play 9 10 "Ann" true patient_input) as [Hsafe Hends];
    [lia|lia|].
  split; [exact Hsafe|]. apply Hends. exact supply_patient_input.
Defined.

(** C2. Board restoration.  Whenever [minimax] or [ai] returns, the board it
    leaves behind is the board it was called on, whatever the board, the
    depth, the layer and the player; and on every board of three rows of
    three both do return (for [ai], when a position is free), so that the
    statement is not empty.  The recursion budget only has to exceed the
    number of free positions. *)
Theorem board_restoration fuel (state : Board) depth max_or_min player :
  (∀ v state', minimax fuel state depth max_or_min = Ok (v, state') →
               state' = state)
  ∧ (∀ x y state', ai fuel state player = Ok (x, y, state') → state' = state)
  ∧ (is_3x3 state → (count_empty state < fuel)%nat →
     (∃ v, minimax fuel state depth max_or_min = Ok (v, state))
     ∧ (board_full state = false →
        ∃ x y, ai fuel state player = Ok (x, y, state))).
Proof.
  split; [|split].
  - intros v state'. apply minimax_restores.
  - intros x y state'. apply ai_restores.
  - intros H3 Hfuel. split.
    + destruct (minimax_total fuel state depth max_or_min H3 Hfuel)
        as (v & Hv & _). eauto.
    + intros Hfull.
      destruct (ai_first_best fuel state player H3 Hfull Hfuel)
        as (x & y & Hai & _). eauto.
Qed.

Lemma board_restoration_witness :
  (∃ v, minimax 10 top_row_open 0 true = Ok (v, top_row_open))
  ∧ (∃ x y, ai 10 top_row_open {| name := "Bot"; symbol := "O" |}
            = Ok (x, y, top_row_open)).
Proof.
  destruct (board_restoration 10 top_row_open 0 true
              {| name := "Bot"; symbol := "O" |}) as (_ & _ & H).
  destruct H as [Hm Ha].
  - apply is_3x3_grid.
  - vm_compute. lia.
  - split; [exact Hm|]. apply Ha. reflexivity.
Defined.

(** C3. Termination and coverage.  On every board of three rows of three
    that is neither won nor full, [ai] returns a pair (row, col) with both
    coordinates in 0..2 and [state.board[row][col] == '-'] at the time of
    the call. *)
Theorem ai_returns_free_position fuel (state : Board) player :
  is_3x3 state → non_terminal state → (count_empty state < fuel)%nat →
  ∃ row col, ai fuel state player = Ok (row, col, state)
             ∧ (row ≤ 2)%nat ∧ (col ≤ 2)%nat
             ∧ getitem state row col = Ok "-".
Proof.
  intros H3 [_ Hfull] Hfuel.
  destruct (ai_first_best fuel state player H3 Hfull Hfuel)
    as (row & col & Hai & Hfb).
  apply first_best_In, in_empty_cells in Hfb.
  destruct (getitem_3x3_range state row col "-" H3 Hfb).
  exists row, col. repeat split; [done|lia|lia|done].
Qed.

Lemma ai_returns_free_position_witness :
  ∃ row col, ai 10 top_row_open {| name := "Bot"; symbol := "O" |}
             = Ok (row, col, top_row_open)
             ∧ (row ≤ 2)%nat ∧ (col ≤ 2)%nat
             ∧ getitem top_row_open row col = Ok "-".
Proof.
  apply (ai_returns_free_position 10 top_row_open).
  - apply is_3x3_grid.
  - split; reflexivity.
  - vm_compute. lia.
Defined.

(** C4. Optimal choice with row-major tie-break.  On every board that is
    neither won nor full, [ai] returns the first of the free positions, in
    row-major order, whose score is the largest score of all free
    positions: every free position before it scores strictly less and every
    one after it at most as much.  The score of a free position is what
    [minimax(state, 0, False)] returns once the mover's symbol has been
    written there. *)
Theorem ai_first_best_move fuel (state : Board) player :
  is_3x3 state → non_terminal state → (count_empty state < fuel)%nat →
  ∃ row col,
    ai fuel state player = Ok (row, col, state)
    ∧ first_best (move_score fuel state player) (empty_cells state) (row, col)
    ∧ ∀ x y, In (x, y) (empty_cells state) →
        ∃ st, setitem state x y (symbol player) = Ok st
              ∧ minimax fuel st 0 false
                = Ok (move_score fuel state player (x, y), st).
Proof.
  intros H3 [_ Hfull] Hfuel.
  destruct (ai_first_best fuel state player H3 Hfull Hfuel)
    as (row & col & Hai & Hfb).
  exists row, col. split; [done|]. split; [done|].
  intros x y Hxy%in_empty_cells.
  exists (put state x y (symbol player)). split.
  - by eapply setitem_Ok.
  - by apply move_score_spec.
Qed.

Lemma ai_first_best_move_witness :
  ∃ row col,
    ai 10 top_row_open {| name := "Bot"; symbol := "O" |}
    = Ok (row, col, top_row_open)
    ∧ first_best (move_score 10 top_row_open {| name := "Bot"; symbol := "O" |})
                 (empty_cells top_row_open) (row, col)
    ∧ ∀ x y, In (x, y) (empty_cells top_row_open) →
        ∃ st, setitem top_row_open x y "O" = Ok st
              ∧ minimax 10 st 0 false
                = Ok (move_score 10 top_row_open
                        {| name := "Bot"; symbol := "O" |} (x, y), st).
Proof.
  apply (ai_first_best_move 10 top_row_open
           {| name := "Bot"; symbol := "O" |}).
  - apply is_3x3_grid.
  - split; reflexivity.
  - vm_compute. lia.
Defined.

(** A board with a line of each mark, which no game and no search reaches:
    there the answer is the one [game_state] meets first, here the top row
    of ['O']. *)
Lemma two_lines_first_match :
  has_line two_lines "X"
  ∧ minimax 10 two_lines 0 true = Ok (10, two_lines)
  ∧ minimax 10 two_lines 0 true ≠ Ok (-10, two_lines).
Proof.
  split; [|split].
  - exists ((1, 0), (1, 1), (1, 2))%nat. split.
    + apply list_elem_of_In. in_lines.
    + repeat split.
  - vm_compute. reflexivity.
  - vm_compute. discriminate.
Qed.

(** C5. Terminal scoring exactness: for every depth and layer, [minimax]
    returns -10 on a board won by ['X'] (a winning line of ['X'] and, as on
    every board of a game, none of ['O']), +10 on a board won by ['O'] (a
    winning line of ['O'] and none of ['X']), and 0 on a full board without
    a winning line.  In general it returns -10 whenever [game_state]
    answers (True, 'X') and +10 whenever it answers (True, 'O'): the
    terminal test precedes the layers. *)
Theorem terminal_scoring fuel (state : Board) depth max_or_min :
  is_3x3 state → (0 < fuel)%nat →
  (has_line state "X" → ¬ has_line state "O" →
   minimax fuel state depth max_or_min = Ok (-10, state))
  ∧ (has_line state "O" → ¬ has_line state "X" →
     minimax fuel state depth max_or_min = Ok (10, state))
  ∧ (board_full state = true →
     ¬ has_line state "X" → ¬ has_line state "O" →
     minimax fuel state depth max_or_min = Ok (0, state))
  ∧ (game_state state = Ok (true, Some "X") →
     minimax fuel state depth max_or_min = Ok (-10, state))
  ∧ (game_state state = Ok (true, Some "O") →
     minimax fuel state depth max_or_min = Ok (10, state)).
Proof.
  intros H3 Hfuel. destruct fuel as [|fuel]; [lia|].
  rewrite (game_state_3x3 state H3).
  repeat split.
  - intros HX HO. apply (minimax_won _ _ _ _ "X"); auto.
    apply (verdict_line state "X" "O"); auto.
  - intros HO HX. apply (minimax_won _ _ _ _ "O"); auto.
    apply (verdict_line state "O" "X"); auto.
  - intros Hf HX HO. apply minimax_full_draw; auto.
    by apply verdict_no_line.
  - intros [= E]. apply (minimax_won _ _ _ _ "X"); auto.
  - intros [= E]. apply (minimax_won _ _ _ _ "O"); auto.
Qed.

Lemma terminal_scoring_witness :
  minimax 10 drawn_board 7 false = Ok (0, drawn_board)
  ∧ minimax 1 (only_line "X" ((0, 0), (1, 1), (2, 2))%nat) 3 true
    = Ok (-10, only_line "X" ((0, 0), (1, 1), (2, 2))%nat).
Proof.
  split.
  - apply (terminal_scoring 10 drawn_board 7 false).
    + apply is_3x3_grid.
    + lia.
    + reflexivity.
    + intros (l & Hl%list_elem_of_In & Hf). unfold lines in Hl.
      cbn [In] in Hl.
      repeat (destruct Hl as [<-|Hl]; [by destruct Hf as ([=] & [=] & [=])|]).
      destruct Hl.
    + intros (l & Hl%list_elem_of_In & Hf). unfold lines in Hl.
      cbn [In] in Hl.
      repeat (destruct Hl as [<-|Hl]; [by destruct Hf as ([=] & [=] & [=])|]).
      destruct Hl.
  - apply (terminal_scoring 1 (only_line "X" ((0, 0), (1, 1), (2, 2))%nat) 3 true).
    + apply is_3x3_grid.
    + lia.
    + reflexivity.
Defined.

(** C6. Win-line completeness.  For each of the eight lines and each of the
    two marks, [game_state] answers (True, mark) on the board that has
    exactly that line filled with that mark and ['-'] everywhere else; and
    on every board without a completed line it answers (False, None). *)
Theorem game_state_lines :
  (∀ l s, In l lines → s = "X" ∨ s = "O" →
          game_state (only_line s l) = Ok (true, Some s))
  ∧ (∀ b : Board, is_3x3 b → ¬ has_line b "X" → ¬ has_line b "O" →
                  game_state b = Ok (false, None)).
Proof.
  split.
  - intros l s Hl Hs. unfold lines in Hl. cbn [In] in Hl.
    destruct Hs as [-> | ->];
      repeat (destruct Hl as [<-|Hl]; [vm_compute; reflexivity|]);
      destruct Hl.
  - intros b H3 HX HO.
    by rewrite (game_state_3x3 b H3), (verdict_no_line b H3 HX HO).
Qed.

Lemma game_state_lines_witness :
  game_state (only_line "O" ((0, 2), (1, 1), (2, 0))%nat) = Ok (true, Some "O")
  ∧ game_state new_board = Ok (false, None).
Proof.
  destruct game_state_lines as [Hline Hnone]. split.
  - apply Hline; [in_lines|by right].
  - apply Hnone.
    + apply is_3x3_grid.
    + intros (l & Hl%list_elem_of_In & Hf). unfold lines in Hl.
      cbn [In] in Hl.
      repeat (destruct Hl as [<-|Hl]; [by destruct Hf as ([=] & _)|]).
      destruct Hl.
    + intros (l & Hl%list_elem_of_In & Hf). unfold lines in Hl.
      cbn [In] in Hl.
      repeat (destruct Hl as [<-|Hl]; [by destruct Hf as ([=] & _)|]).
      destruct Hl.
Defined.

(** C7. Known endgame scenario.  On the board
    O O - / X X - / - - - with the ['O'] player to move, [ai] returns
    (0, 2), which completes the top row. *)
Theorem ai_completes_top_row fuel player :
  symbol player = "O" → (count_empty top_row_open < fuel)%nat →
  ai fuel top_row_open player = Ok (0, 2, top_row_open)%nat
  ∧ game_state (put top_row_open 0 2 "O") = Ok (true, Some "O").
Proof.
  intros Hs Hfuel. split; [|reflexivity].
  rewrite (ai_fuel fuel 10).
  - destruct player as [n s]. cbn in Hs. subst s. vm_compute. reflexivity.
  - apply is_3x3_grid.
  - done.
  - vm_compute. lia.
Qed.

Lemma ai_completes_top_row_witness :
  ai 10 top_row_open {| name := "Bot"; symbol := "O" |}
  = Ok (0, 2, top_row_open)%nat
  ∧ game_state (put top_row_open 0 2 "O") = Ok (true, Some "O").
Proof.
  apply (ai_completes_top_row 10 {| name := "Bot"; symbol := "O" |}).
  - reflexivity.
  - vm_compute. lia.
Defined.

(** C8, the claim as stated fails for one of the two marks: an ['X']
    written at (2, 2) completes the diagonal from (0, 0), and [game_state]
    answers (True, 'X') instead of (False, None). *)
Lemma last_cell_X_wins :
  empty_cells last_cell_open = [(2, 2)%nat]
  ∧ ∃ b, setitem last_cell_open 2 2 "X" = Ok b
         ∧ game_state b = Ok (true, Some "X")
         ∧ game_state b ≠ Ok (false, None).
Proof.
  split; [reflexivity|].
  eexists. split; [reflexivity|]. split; [reflexivity|]. discriminate.
Qed.

(** C8, amended.  On the board X O X / O X O / O X - the only free position
    is (2, 2); once the bot's mark ['O'] is written there, [game_state]
    answers (False, None) and [board_full] answers True: a draw. *)
Theorem last_cell_O_draws :
  empty_cells last_cell_open = [(2, 2)%nat]
  ∧ ∃ b, setitem last_cell_open 2 2 "O" = Ok b
         ∧ game_state b = Ok (false, None)
         ∧ board_full b = true.
Proof.
  split; [reflexivity|].
  eexists. split; [reflexivity|]. split; reflexivity.
Qed.

(** C9. Termination.  On every board of three rows of three (whatever its
    positions hold, so in particular when they hold ['X'], ['O'] or ['-'])
    [minimax] returns a score, without error, as soon as the recursion
    budget exceeds the number of free positions, which is at most nine; and
    every board handed to a recursive call, the board with ['X'] or ['O']
    written on a free position, has strictly fewer free positions. *)
Theorem minimax_terminates (state : Board) depth max_or_min :
  is_3x3 state →
  (∀ fuel, (count_empty state < fuel)%nat →
           ∃ v, minimax fuel state depth max_or_min = Ok (v, state)
                ∧ is_score v)
  ∧ (count_empty state ≤ 9)%nat
  ∧ (∀ x y mark st,
       getitem state x y = Ok "-" → mark = "X" ∨ mark = "O" →
       setitem state x y mark = Ok st →
       is_3x3 st ∧ (count_empty st < count_empty state)%nat).
Proof.
  intros H3. split; [|split].
  - intros fuel Hfuel. by apply minimax_total.
  - by apply count_empty_3x3.
  - intros x y mark st Hxy Hmark [-> _]%setitem_inv. split.
    + by apply is_3x3_put.
    + apply count_empty_put_lt; [done|]. by destruct Hmark as [-> | ->].
Qed.

Lemma minimax_terminates_witness :
  ∃ v, minimax 6 top_row_open 0 false = Ok (v, top_row_open) ∧ is_score v.
Proof.
  destruct (minimax_terminates top_row_open 0 false) as (H & _ & _).
  - apply is_3x3_grid.
  - apply H. vm_compute. lia.
Defined.

(** C10. On a full board the loops of [ai] never reach their body,
    [best_move] is never bound, and [ai] raises instead of returning a
    position. *)
Theorem ai_full_board_raises fuel (state : Board) player :
  board_full state = true → ai fuel state player = UnboundLocalError.
Proof.
  intros Hfull. rewrite ai_sweep.
  by rewrite (sweep_full _ _ _ state _ Hfull).
Qed.

Lemma ai_full_board_raises_witness :
  ai 10 drawn_board {| name := "Bot"; symbol := "O" |} = UnboundLocalError.
Proof. apply ai_full_board_raises. reflexivity. Defined.

(** * The rest of the program: lemmas *)

(** ** Who completes a line *)

Lemma mover_completes_line (b : Board) x y s t :
  is_3x3 b → verdict b = (false, None) → getitem b x y = Ok "-" →
  s = "X" ∨ s = "O" → t = "X" ∨ t = "O" →
  verdict (put b x y s) = (true, Some t) → t = s.
Proof.
  intros H3 E Hxy Hs Ht E'.
  destruct (String.eqb_spec t s) as [|Hne]; [done|].
  apply verdict_won_has_line in E'; [|by apply is_3x3_put].
  apply (has_line_put_other b x y "-" s t) in E'; [|done|done].
  by apply (has_line_verdict b t) in E'.
Qed.

Lemma game_loop_fair rounds :
  ∀ fuel p1 p2 turn (b : Board) inputs,
    is_3x3 b → verdict b = (false, None) → board_full b = false →
    symbol p1 = "X" → symbol p2 = "O" →
    (count_empty b ≤ rounds)%nat → (count_empty b < fuel)%nat →
    fair_outcome p1 p2 (game_loop rounds fuel p1 p2 turn b inputs).
Proof.
  induction rounds as [|rounds IH];
    intros fuel p1 p2 turn b inputs H3 Hv Hfull Hp1 Hp2 Hrounds Hfuel.
  { pose proof (count_empty_pos b Hfull). lia. }
  cbn [game_loop].
  set (player := if turn =? 1 then p1 else p2).
  assert (symbol player = "X" ∨ symbol player = "O") as Hs.
  { unfold player. destruct (turn =? 1); auto. }
  assert (player = p1 ∨ player = p2) as Hp.
  { unfold player. destruct (turn =? 1); auto. }
  destruct (make_play_free fuel b player inputs H3 Hfull Hfuel)
    as [->|(x & y & rest & -> & Hxy)]; [done|].
  cbn [bind].
  assert (symbol player ≠ "-") as Hne by (by destruct Hs as [-> | ->]).
  assert (is_3x3 (put b x y (symbol player))) as H3' by by apply is_3x3_put.
  pose proof (count_empty_put_lt b x y (symbol player) Hxy Hne) as Hlt.
  rewrite (game_state_3x3 _ H3'). cbn [bind].
  destruct (verdict_cases (put b x y (symbol player))) as [E|[E|E]];
    rewrite E.
  - apply mover_completes_line in E as Es; auto.
    unfold fair_outcome. by rewrite (game_state_3x3 _ H3'), E, Es.
  - apply mover_completes_line in E as Es; auto.
    unfold fair_outcome. by rewrite (game_state_3x3 _ H3'), E, Es.
  - destruct (board_full (put b x y (symbol player))) eqn:Hf.
    + unfold fair_outcome. by rewrite (game_state_3x3 _ H3'), E.
    + apply IH; try done; lia.
Qed.

(** ** The table of positions *)

Lemma moves_outside move : ¬ (0 < move < 10) → moves move = KeyError.
Proof.
  intros H. destruct move as [|p|p]; [reflexivity| |reflexivity].
  do 4 (destruct p as [p|p|]; try reflexivity; try (exfalso; lia)).
Qed.

Lemma moves_number move x y :
  moves move = Ok (x, y) → move = Z.of_nat (3 * x + y + 1).
Proof.
  intros H. destruct (decide (0 < move < 10)) as [Hm|Hm].
  - assert (move = 1 ∨ move = 2 ∨ move = 3 ∨ move = 4 ∨ move = 5 ∨ move = 6
            ∨ move = 7 ∨ move = 8 ∨ move = 9) as Hc by lia.
    repeat (destruct Hc as [->|Hc]; [by injection H as <- <-|]).
    subst. by injection H as <- <-.
  - rewrite (moves_outside move Hm) in H. discriminate.
Qed.

(** ** Choosing a position *)

Lemma choose_position_inv (b : Board) inputs x y rest :
  is_3x3 b → choose_position b inputs = Ok (x, y, rest) →
  ∃ skipped move,
    inputs = (skipped ++ move :: rest)%list
    ∧ Forall (refused b) skipped
    ∧ moves move = Ok (x, y) ∧ getitem b x y = Ok "-".
Proof.
  intros H3. induction inputs as [|a inputs IH]; cbn [choose_position];
    [discriminate|].
  assert (refused b a →
          choose_position b inputs = Ok (x, y, rest) →
          ∃ skipped move,
            a :: inputs = (skipped ++ move :: rest)%list
            ∧ Forall (refused b) skipped
            ∧ moves move = Ok (x, y) ∧ getitem b x y = Ok "-") as Hskip.
  { intros Ha (skipped & move & -> & Hall & Hmv & Hxy)%IH.
    exists (a :: skipped), move. split; [done|]. split; [|done].
    by constructor. }
  destruct (Z.ltb_spec a 10) as [Ha1|Ha1]; cbn [andb].
  2:{ apply Hskip. left. lia. }
  destruct (Z.gtb_spec a 0) as [Ha0|Ha0].
  2:{ apply Hskip. left. lia. }
  destruct (moves_in_range a) as (xa & ya & Hmva & Hxa & Hya); [lia|].
  rewrite Hmva. cbn [bind]. unfold check_pos.
  rewrite (getitem_cell b xa ya) by done. cbn [bind].
  destruct (String.eqb_spec (cell b xa ya) "-") as [E|Hne].
  - intros [= <- <- <-]. exists [], a. split; [done|]. split; [constructor|].
    split; [done|]. by rewrite (getitem_cell b xa ya), E.
  - apply Hskip. right. exists xa, ya, (cell b xa ya).
    split; [done|]. split; [by apply getitem_cell|done].
Qed.

Lemma choose_position_full (b : Board) inputs :
  is_3x3 b → board_full b = true → choose_position b inputs = EOFError.
Proof.
  intros H3 Hfull.
  destruct (choose_position_free b inputs H3)
    as [E|(x & y & rest & _ & Hxy)]; [done|].
  assert (board_full b = false) by (apply board_full_false; eauto).
  congruence.
Qed.

(** ** A turn *)

Lemma make_play_turn fuel (b : Board) player inputs :
  is_3x3 b → board_full b = false → (count_empty b < fuel)%nat →
  make_play fuel b player inputs = EOFError
  ∨ ∃ x y used rest,
      make_play fuel b player inputs = Ok (put b x y (symbol player), rest)
      ∧ getitem b x y = Ok "-" ∧ inputs = (used ++ rest)%list.
Proof.
  intros H3 Hfull Hfuel. unfold make_play, set_player.
  destruct (String.eqb (name player) "Bot").
  - destruct (ai_first_best fuel b player H3 Hfull Hfuel)
      as (x & y & -> & Hxy%first_best_In%in_empty_cells).
    cbn [bind]. rewrite (setitem_Ok b x y "-" _ Hxy). cbn [bind].
    right. by exists x, y, [], inputs.
  - destruct (choose_position_free b inputs H3)
      as [->|(x & y & rest & Ec & _)]; [by left|].
    rewrite Ec.
    destruct (choose_position_inv b inputs x y rest H3 Ec)
      as (skipped & move & -> & _ & _ & Hxy).
    cbn [bind]. rewrite (setitem_Ok b x y "-" _ Hxy). cbn [bind].
    right. exists x, y, (skipped ++ [move])%list, rest.
    split; [done|]. split; [done|]. by rewrite <- app_assoc.
Qed.

(** ** The move of [ai] and the value of the board *)

Lemma first_best_max score l p q :
  first_best score l p → In q l → score q ≤ score p.
Proof.
  intros (l1 & l2 & -> & H1 & H2) Hq.
  apply in_app_or in Hq as [Hq|[<-|Hq]].
  - specialize (H1 q Hq). lia.
  - lia.
  - by apply H2.
Qed.

Lemma ai_move_value fuel (b : Board) x y :
  is_3x3 b → verdict b = (false, None) → board_full b = false →
  (count_empty b < fuel)%nat →
  first_best (move_score fuel b bot) (empty_cells b) (x, y) →
  move_score fuel b bot (x, y) = value fuel b true.
Proof.
  intros H3 E Hfull Hfuel Hfb.
  rewrite (value_layer fuel b true H3 E Hfull Hfuel). cbn [negb].
  change (fun p : nat * nat => value fuel (put b p.1 p.2 "O") false)
    with (move_score fuel b bot).
  pose proof (first_best_In _ _ _ Hfb) as Hin.
  pose proof (fold_max_ge (map (move_score fuel b bot) (empty_cells b))
                (-10000) (move_score fuel b bot (x, y))
                (or_intror (in_map _ _ _ Hin))) as Hge.
  destruct (fold_max_In (map (move_score fuel b bot) (empty_cells b))
              (-10000)) as [Hm|Hm].
  - destruct (move_score_spec fuel b bot x y H3 Hfuel) as [_ Hs].
    { by apply in_empty_cells. }
    unfold is_score in Hs. lia.
  - apply in_map_iff in Hm as (q & Hq & Hqin).
    pose proof (first_best_max _ _ _ q Hfb Hqin). lia.
Qed.

(** ** A won position is won *)

Lemma game_loop_wins rounds :
  ∀ fuel p1 turn (b : Board) inputs,
    is_3x3 b → verdict b = (false, None) → board_full b = false →
    symbol p1 = "X" → turn = 1 ∨ turn = -1 →
    value fuel b (negb (turn =? 1)) = 10 →
    (count_empty b ≤ rounds)%nat → (count_empty b < fuel)%nat →
    bot_wins (game_loop rounds fuel p1 bot turn b inputs).
Proof.
  induction rounds as [|rounds IH];
    intros fuel p1 turn b inputs H3 Hv Hfull Hp1 Hturn Hval Hrounds Hfuel.
  { pose proof (count_empty_pos b Hfull). lia. }
  cbn [game_loop].
  assert (∀ x y mark rest,
            getitem b x y = Ok "-" → mark = (if turn =? 1 then "X" else "O") →
            value fuel (put b x y mark) (negb (turn * -1 =? 1)) = 10 →
            bot_wins
              ('(g_state, symb) <- game_state (put b x y mark) ;;
               if g_state
               then Ok (HasWon (if turn =? 1 then p1 else bot), put b x y mark)
               else if board_full (put b x y mark)
                    then Ok (EndedAsDraw, put b x y mark)
                    else game_loop rounds fuel p1 bot (turn * -1)
                           (put b x y mark) rest))
    as Hnext.
  { intros x y mark rest Hxy Hmark Hval'.
    assert (mark ≠ "-") as Hne.
    { rewrite Hmark. by destruct (turn =? 1). }
    assert (is_3x3 (put b x y mark)) as H3' by by apply is_3x3_put.
    pose proof (count_empty_put_lt b x y mark Hxy Hne) as Hlt.
    rewrite (game_state_3x3 _ H3'). cbn [bind].
    destruct (verdict_cases (put b x y mark)) as [E|[E|E]]; rewrite E.
    - rewrite (value_won fuel _ _ "X") in Hval' by (auto || lia).
      cbn in Hval'. lia.
    - destruct Hturn as [-> | ->]; cbn in Hmark; subst mark.
      + by apply person_move_no_O_line in E.
      + change (-1 =? 1) with false. unfold bot_wins. cbv iota beta.
        by rewrite (game_state_3x3 _ H3'), E.
    - destruct (board_full (put b x y mark)) eqn:Hf.
      + rewrite value_full in Hval' by (auto || lia). lia.
      + apply IH; try done; lia. }
  destruct Hturn as [-> | ->].
  - (* the person's turn *)
    change (1 =? 1) with true in *. cbn [negb] in Hval.
    destruct (make_play_free fuel b p1 inputs H3 Hfull Hfuel)
      as [->|(x & y & rest & -> & Hxy)]; [done|].
    cbn [bind]. rewrite Hp1. apply Hnext; [done|done|].
    change (negb (1 * -1 =? 1)) with true.
    assert ("X" ≠ "-") as Hne by done.
    pose proof (count_empty_put_lt b x y "X" Hxy Hne) as Hlt.
    destruct (minimax_value fuel (put b x y "X") 0 true) as [_ Hs];
      [by apply is_3x3_put|lia|].
    assert (10 ≤ value fuel (put b x y "X") true) as Hge.
    { rewrite <- Hval.
      rewrite (value_layer fuel b false H3 Hv Hfull Hfuel). cbn [negb].
      apply fold_min_le. right.
      apply (in_map (fun p => value fuel (put b p.1 p.2 "X") true) _ (x, y)).
      by apply in_empty_cells. }
    unfold is_score in Hs. lia.
  - (* the bot's turn *)
    change (-1 =? 1) with false in *. cbn [negb] in Hval.
    rewrite make_play_bot.
    destruct (ai_first_best fuel b bot H3 Hfull Hfuel)
      as (x & y & -> & Hfb).
    pose proof (proj1 (in_empty_cells b x y) (first_best_In _ _ _ Hfb))
      as Hxy.
    cbn [bind]. rewrite (setitem_Ok b x y "-" "O" Hxy). cbn [bind].
    apply Hnext; [done|done|].
    change (negb (-1 * -1 =? 1)) with false.
    rewrite <- Hval. by apply (ai_move_value fuel b x y).
Qed.

(** ** Counting symbols *)

Lemma filter_insert_length {A} (f : A → bool) (l : list A) i c v :
  l !! i = Some c →
  (length (List.filter f (<[i := v]> l)) + (if f c then 1 else 0)
   = length (List.filter f l) + (if f v then 1 else 0))%nat.
Proof.
  revert i. induction l as [|a l IH]; intros [|i]; try discriminate.
  - intros [= ->]. cbn. destruct (f c), (f v); cbn; lia.
  - intros H. specialize (IH i H).
    change (<[S i := v]> (a :: l)) with (a :: <[i := v]> l).
    cbn [List.filter]. destruct (f a); cbn [length]; lia.
Qed.

Lemma count_symbol_put (b : Board) x y c v s :
  getitem b x y = Ok c →
  (count_symbol (put b x y v) s + (if String.eqb s c then 1 else 0)
   = count_symbol b s + (if String.eqb s v then 1 else 0))%nat.
Proof.
  intros (r & Hr & Hc)%getitem_Ok. unfold count_symbol, put.
  rewrite Hr. change (default [] (Some r)) with r.
  pose proof (filter_insert_length (String.eqb s) r y c v Hc) as Hrow.
  revert x Hr. induction b as [|a b IH]; intros [|x]; try discriminate.
  - intros [= ->].
    change (<[0%nat := <[y := v]> r]> (r :: b)) with (<[y := v]> r :: b).
    cbn [concat]. rewrite !List.filter_app, !length_app. lia.
  - intros H. specialize (IH x H).
    change (<[S x := <[y := v]> r]> (a :: b))
      with (a :: <[x := <[y := v]> r]> b).
    cbn [concat]. rewrite !List.filter_app, !length_app. lia.
Qed.

Lemma count_symbol_move (b : Board) x y v s :
  getitem b x y = Ok "-" → s ≠ "-" →
  count_symbol (put b x y v) s
  = (count_symbol b s + (if String.eqb s v then 1 else 0))%nat.
Proof.
  intros Hxy Hs. pose proof (count_symbol_put b x y "-" v s Hxy) as H.
  apply String.eqb_neq in Hs. rewrite Hs in H. lia.
Qed.

Lemma game_loop_balanced rounds :
  ∀ fuel p1 p2 turn (b : Board) inputs a b',
    is_3x3 b → board_full b = false →
    symbol p1 = "X" → symbol p2 = "O" → turn = 1 ∨ turn = -1 →
    balanced turn b → (count_empty b < fuel)%nat →
    game_loop rounds fuel p1 p2 turn b inputs = Ok (a, b') →
    (count_symbol b' "X" ≤ count_symbol b' "O" + 1
     ∧ count_symbol b' "O" ≤ count_symbol b' "X" + 1)%nat.
Proof.
  induction rounds as [|rounds IH];
    intros fuel p1 p2 turn b inputs a b' H3 Hfull Hp1 Hp2 Hturn Hbal Hfuel;
    [discriminate|].
  cbn [game_loop].
  set (player := if turn =? 1 then p1 else p2).
  assert (symbol player = (if turn =? 1 then "X" else "O")) as Hs.
  { unfold player. by destruct (turn =? 1). }
  destruct (make_play_free fuel b player inputs H3 Hfull Hfuel)
    as [->|(x & y & rest & -> & Hxy)]; [discriminate|].
  cbn [bind]. rewrite Hs.
  set (mark := if turn =? 1 then "X" else "O").
  assert (mark ≠ "-") as Hne by (unfold mark; by destruct (turn =? 1)).
  assert (is_3x3 (put b x y mark)) as H3' by by apply is_3x3_put.
  pose proof (count_empty_put_lt b x y mark Hxy Hne) as Hlt.
  pose proof (count_symbol_move b x y mark "X" Hxy) as HX.
  pose proof (count_symbol_move b x y mark "O" Hxy) as HO.
  assert (balanced (turn * -1) (put b x y mark)
          ∧ (count_symbol (put b x y mark) "X"
             ≤ count_symbol (put b x y mark) "O" + 1
             ∧ count_symbol (put b x y mark) "O"
               ≤ count_symbol (put b x y mark) "X" + 1)%nat) as [Hbal' Hnow].
  { unfold balanced in *. rewrite !HX, !HO by done. unfold mark.
    remember (count_symbol b "X") as cX. remember (count_symbol b "O") as cO.
    clear -Hbal Hturn.
    destruct Hturn as [-> | ->];
      [change (1 =? 1) with true in *; change (1 * -1 =? 1) with false
      |change (-1 =? 1) with false in *; change (-1 * -1 =? 1) with true];
      cbn in *; lia. }
  rewrite (game_state_3x3 _ H3'). cbn [bind].
  destruct (verdict (put b x y mark)) as [[|] symb].
  - by intros [= _ <-].
  - destruct (board_full (put b x y mark)) eqn:Hf.
    + by intros [= _ <-].
    + apply IH; try done; [|lia]. destruct Hturn as [-> | ->]; auto.
Qed.

(** ** Printing the board *)

Lemma one_char_inv c : String.length c = 1%nat → ∃ a, c = String a "".
Proof.
  destruct c as [|a [|a' c]]; try discriminate. intros _. by exists a.
Qed.

Lemma show_board_injective (b1 b2 : Board) :
  is_3x3 b1 → is_3x3 b2 → one_char_cells b1 → one_char_cells b2 →
  show_board b1 = show_board b2 → b1 = b2.
Proof.
  intros (a0 & a1 & a2 & a3 & a4 & a5 & a6 & a7 & a8 & ->)%is_3x3_inv
         (c0 & c1 & c2 & c3 & c4 & c5 & c6 & c7 & c8 & ->)%is_3x3_inv H1 H2.
  repeat match goal with
         | H : one_char_cells _ |- _ => unfold one_char_cells in H
         | H : Forall _ (_ :: _) |- _ => apply Forall_cons in H as [? ?]
         | H : String.length _ = 1%nat |- _ =>
             apply one_char_inv in H as [? ->]
         end.
  cbn. intros H. by simplify_eq.
Qed.

Lemma choose_position_refused (b : Board) inputs :
  is_3x3 b → choose_position b inputs = EOFError → Forall (refused b) inputs.
Proof.
  intros H3. induction inputs as [|a inputs IH]; cbn [choose_position];
    [constructor|].
  destruct (Z.ltb_spec a 10) as [Ha1|Ha1]; cbn [andb].
  2:{ intros E. constructor; [left; lia|by apply IH]. }
  destruct (Z.gtb_spec a 0) as [Ha0|Ha0].
  2:{ intros E. constructor; [left; lia|by apply IH]. }
  destruct (moves_in_range a) as (xa & ya & Hmva & Hxa & Hya); [lia|].
  rewrite Hmva. cbn [bind]. unfold check_pos.
  rewrite (getitem_cell b xa ya) by done. cbn [bind].
  destruct (String.eqb_spec (cell b xa ya) "-") as [E|Hne]; [discriminate|].
  intros E. constructor; [|by apply IH].
  right. exists xa, ya, (cell b xa ya).
  split; [done|]. split; [by apply getitem_cell|done].
Qed.

Lemma non_terminal_verdict (b : Board) :
  is_3x3 b → non_terminal b → verdict b = (false, None) ∧ board_full b = false.
Proof.
  intros H3 [Hg Hf]. rewrite (game_state_3x3 b H3) in Hg. by injection Hg.
Qed.

(** ** [set_player] with Python integers *)

Lemma py_index_in (len : nat) (i : Z) :
  - Z.of_nat len ≤ i < Z.of_nat len →
  py_index len i = Ok (Z.to_nat (i mod Z.of_nat len))
  ∧ (Z.to_nat (i mod Z.of_nat len) < len)%nat.
Proof.
  intros Hi. unfold py_index.
  destruct (Z.leb_spec 0 i) as [H0|H0]; cbn [andb].
  - destruct (Z.ltb_spec i (Z.of_nat len)); [|lia].
    rewrite Z.mod_small by lia. split; [done|lia].
  - destruct (Z.ltb_spec i 0); [|lia]. cbn [andb].
    destruct (Z.leb_spec (- Z.of_nat len) i); [|lia].
    assert (i mod Z.of_nat len = Z.of_nat len + i) as ->.
    { rewrite <- (Z_mod_plus_full i 1 (Z.of_nat len)).
      rewrite Z.mod_small by lia. lia. }
    split; [done|lia].
Qed.

Lemma py_index_out (len : nat) (i : Z) :
  ¬ (- Z.of_nat len ≤ i < Z.of_nat len) → py_index len i = IndexError.
Proof.
  intros Hi. unfold py_index.
  destruct (Z.leb_spec 0 i) as [H0|H0]; cbn [andb].
  - destruct (Z.ltb_spec i (Z.of_nat len)); [lia|].
    destruct (Z.ltb_spec i 0); [lia|]. done.
  - destruct (Z.ltb_spec i 0); [|lia]. cbn [andb].
    destruct (Z.leb_spec (- Z.of_nat len) i); [lia|]. done.
Qed.

Lemma py_index_nat (len i : nat) :
  py_index len (Z.of_nat i)
  = if decide (i < len)%nat then Ok i else IndexError.
Proof.
  destruct (decide (i < len)%nat) as [H|H].
  - destruct (py_index_in len (Z.of_nat i)) as [-> _]; [lia|].
    rewrite Z.mod_small by lia. by rewrite Nat2Z.id.
  - apply py_index_out. lia.
Qed.

(** With positions that are not negative, as [make_play] passes them, the
    two models of [set_player] are the same function. *)
Lemma set_player_int_nat fuel (b : Board) player (x y : nat) :
  set_player_int fuel b player (Z.of_nat x) (Z.of_nat y)
  = set_player fuel b player x y.
Proof.
  unfold set_player_int, set_player.
  destruct (String.eqb (name player) "Bot"); [done|].
  rewrite py_index_nat. unfold setitem.
  destruct (decide (x < length b)%nat) as [Hx|Hx]; cbn [bind].
  - unfold getrow at 1. 
    destruct (b !! x) as [r|] eqn:Hr. 2:{ apply lookup_ge_None in Hr. lia. }
    cbn [bind]. rewrite py_index_nat. unfold getrow. rewrite Hr.
    destruct (decide (y < length r)%nat) as [Hy|Hy]; cbn [bind]; [done|].
    apply Nat.nlt_ge, lookup_ge_None_2 in Hy. by rewrite Hy.
  - unfold getrow. apply Nat.nlt_ge, lookup_ge_None_2 in Hx. by rewrite Hx.
Qed.

Lemma row_of_3x3 (b : Board) i :
  is_3x3 b → (i < 3)%nat → ∃ r, b !! i = Some r ∧ length r = 3%nat.
Proof.
  intros [Hl Hr] Hi. destruct (lookup_lt_is_Some_2 b i) as [r Hri]; [lia|].
  exists r. split; [done|]. by eapply (Forall_lookup_1 _ _ _ _ Hr).
Qed.

(** * Further properties of the code *)

(** X1. The depth argument of [minimax] is passed along and never looked
    at: the score and the board returned do not depend on it, on any board.
    In particular a quick win does not score higher than a slow one. *)
Theorem minimax_ignores_depth fuel (state : Board) depth depth' max_or_min :
  minimax fuel state depth max_or_min = minimax fuel state depth' max_or_min.
Proof. apply minimax_depth. Qed.

(** X2. On a board where the game goes on, [minimax] returns the best of the
    scores of its recursive calls: the score of one of the boards obtained
    by writing the symbol of the layer (['O'] when maximizing, ['X'] when
    minimizing) on a free position, no smaller than any of them in the
    maximizing layer, no larger in the minimizing layer.  The initial
    -10000 or 10000 is never returned. *)
Theorem minimax_best_of_children fuel (state : Board) depth max_or_min :
  is_3x3 state → non_terminal state → (count_empty state < fuel)%nat →
  ∃ v, minimax fuel state depth max_or_min = Ok (v, state)
       ∧ (∃ p, In p (empty_cells state)
               ∧ v = value fuel (put state p.1 p.2
                                     (if max_or_min then "O" else "X"))
                       (negb max_or_min))
       ∧ ∀ p, In p (empty_cells state) →
           let child := put state p.1 p.2 (if max_or_min then "O" else "X") in
           minimax fuel child (depth + 1) (negb max_or_min)
           = Ok (value fuel child (negb max_or_min), child)
           ∧ if max_or_min then value fuel child (negb max_or_min) ≤ v
             else v ≤ value fuel child (negb max_or_min).
Proof.
  intros H3 Hnt Hfuel.
  destruct (non_terminal_verdict state H3 Hnt) as [Hv Hfull].
  destruct (minimax_value fuel state depth max_or_min H3 Hfuel) as [Hm Hs].
  exists (value fuel state max_or_min). split; [done|].
  rewrite (value_layer fuel state max_or_min H3 Hv Hfull Hfuel).
  set (mark := if max_or_min then "O" else "X").
  set (child := fun p : nat * nat =>
                  value fuel (put state p.1 p.2 mark) (negb max_or_min)).
  assert (mark ≠ "-") as Hmark by (unfold mark; by destruct max_or_min).
  pose proof (empty_cells_nonempty state Hfull) as Hne.
  assert (∀ p, In p (empty_cells state) → is_score (child p)) as Hall.
  { intros [x y] Hxy%in_empty_cells. unfold child. cbn [fst snd].
    pose proof (count_empty_put_lt state x y mark Hxy Hmark).
    apply (minimax_value fuel (put state x y mark) 0);
      [by apply is_3x3_put|lia]. }
  split.
  - destruct max_or_min.
    + destruct (fold_max_In (map child (empty_cells state)) (-10000))
        as [E|Hin].
      * destruct (empty_cells state) as [|q l]; [done|].
        pose proof (fold_max_ge (map child (q :: l)) (-10000) (child q)
                      (or_intror (or_introl eq_refl))) as Hge.
        specialize (Hall q (or_introl eq_refl)). unfold is_score in Hall.
        lia.
      * apply in_map_iff in Hin as (p & Hp & Hin). by exists p.
    + destruct (fold_min_In (map child (empty_cells state)) 10000)
        as [E|Hin].
      * destruct (empty_cells state) as [|q l]; [done|].
        pose proof (fold_min_le (map child (q :: l)) 10000 (child q)
                      (or_intror (or_introl eq_refl))) as Hge.
        specialize (Hall q (or_introl eq_refl)). unfold is_score in Hall.
        lia.
      * apply in_map_iff in Hin as (p & Hp & Hin). by exists p.
  - intros [x y] Hin. cbn [fst snd]. cbv zeta.
    pose proof (proj1 (in_empty_cells state x y) Hin) as Hxy.
    pose proof (count_empty_put_lt state x y mark Hxy Hmark).
    split.
    + apply minimax_value; [by apply is_3x3_put|lia].
    + destruct max_or_min.
      * apply fold_max_ge. right. apply (in_map child _ (x, y) Hin).
      * apply fold_min_le. right. apply (in_map child _ (x, y) Hin).
Qed.

Lemma minimax_best_of_children_witness :
  ∃ v, minimax 6 top_row_open 0 true = Ok (v, top_row_open)
       ∧ (∃ p, In p (empty_cells top_row_open)
               ∧ v = value 6 (put top_row_open p.1 p.2 "O") false)
       ∧ ∀ p, In p (empty_cells top_row_open) →
           let child := put top_row_open p.1 p.2 "O" in
           minimax 6 child (0 + 1) false = Ok (value 6 child false, child)
           ∧ value 6 child false ≤ v.
Proof.
  apply (minimax_best_of_children 6 top_row_open 0 true).
  - apply is_3x3_grid.
  - split; reflexivity.
  - vm_compute. lia.
Defined.

(** X3. On a board of three rows of three [game_state] never raises and
    gives one of three answers, each for its reason: (True, 'X') only when
    a line is filled with ['X'], (True, 'O') only when a line is filled
    with ['O'], and (False, None) exactly when no line is filled with
    either. *)
Theorem game_state_reports_a_line (b : Board) :
  is_3x3 b →
  (game_state b = Ok (true, Some "X") ∧ has_line b "X")
  ∨ (game_state b = Ok (true, Some "O") ∧ has_line b "O")
  ∨ (game_state b = Ok (false, None)
     ∧ ¬ has_line b "X" ∧ ¬ has_line b "O").
Proof.
  intros H3. rewrite (game_state_3x3 b H3).
  destruct (verdict_cases b) as [E|[E|E]]; rewrite E.
  - left. split; [done|]. by apply verdict_won_has_line.
  - right; left. split; [done|]. by apply verdict_won_has_line.
  - right; right. split; [done|].
    split; intros Hl.
    + by apply (has_line_verdict b "X") in Hl; auto.
    + by apply (has_line_verdict b "O") in Hl; auto.
Qed.

Lemma game_state_reports_a_line_witness :
  (game_state two_lines = Ok (true, Some "X") ∧ has_line two_lines "X")
  ∨ (game_state two_lines = Ok (true, Some "O") ∧ has_line two_lines "O")
  ∨ (game_state two_lines = Ok (false, None)
     ∧ ¬ has_line two_lines "X" ∧ ¬ has_line two_lines "O").
Proof. apply game_state_reports_a_line, is_3x3_grid. Defined.

(** X4. [board_full] answers True exactly when no position of the board
    holds ['-'], whatever the shape of the board. *)
Theorem board_full_iff_no_dash (b : Board) :
  board_full b = true ↔ ∀ x y c, getitem b x y = Ok c → c ≠ "-".
Proof.
  split.
  - intros Hf x y c Hc ->.
    assert (board_full b = false) by (apply board_full_false; eauto).
    congruence.
  - intros H. destruct (board_full b) eqn:Hf; [done|].
    apply board_full_false in Hf as (x & y & Hxy). by destruct (H x y "-").
Qed.

(** X5. For a player who is not the bot, [set_player] writes the player's
    symbol at the position it is given without looking at what is there.
    On a board of three rows of three, with [x] and [y] any Python
    integers: when both are from -3 to 2 the position written is
    ([x mod 3], [y mod 3]) (a negative index counts from the end, so
    [set_player(p, -1, -1)] writes the bottom right position), whatever it
    held, and no other position changes; when one of them is outside that
    range the call raises IndexError. *)
Theorem set_player_person_writes fuel (b : Board) player (x y : Z) :
  name player ≠ "Bot" → is_3x3 b →
  (-3 ≤ x < 3 → -3 ≤ y < 3 →
   ∃ b', set_player_int fuel b player x y = Ok b'
         ∧ getitem b' (Z.to_nat (x mod 3)) (Z.to_nat (y mod 3))
           = Ok (symbol player)
         ∧ ∀ x' y', (Z.to_nat (x mod 3), Z.to_nat (y mod 3)) ≠ (x', y') →
                    getitem b' x' y' = getitem b x' y')
  ∧ (¬ (-3 ≤ x < 3 ∧ -3 ≤ y < 3) →
     set_player_int fuel b player x y = IndexError).
Proof.
  intros Hname%String.eqb_neq H3. unfold set_player_int. rewrite Hname.
  pose proof (proj1 H3) as Hlen. rewrite Hlen. split.
  - intros Hx Hy.
    destruct (py_index_in 3 x) as [-> Hrow]; [lia|].
    change (Z.of_nat 3) with 3 in *. cbn [bind].
    destruct (row_of_3x3 b _ H3 Hrow) as (r & Hr & Hlr).
    unfold getrow at 1. rewrite Hr. cbn [bind]. rewrite Hlr.
    destruct (py_index_in 3 y) as [-> Hcol]; [lia|].
    change (Z.of_nat 3) with 3 in *. cbn [bind].
    pose proof (getitem_cell b _ _ H3 Hrow Hcol) as Hc.
    exists (put b (Z.to_nat (x mod 3)) (Z.to_nat (y mod 3)) (symbol player)).
    split; [by eapply setitem_Ok|]. split; [by eapply getitem_put_eq|].
    intros x' y' Hne. by apply getitem_put_ne.
  - intros Hout.
    destruct (decide (-3 ≤ x < 3)) as [Hx|Hx].
    + destruct (py_index_in 3 x) as [-> Hrow]; [lia|].
      change (Z.of_nat 3) with 3 in *. cbn [bind].
      destruct (row_of_3x3 b _ H3 Hrow) as (r & Hr & Hlr).
      unfold getrow at 1. rewrite Hr. cbn [bind]. rewrite Hlr.
      rewrite (py_index_out 3 y) by lia. done.
    + rewrite (py_index_out 3 x) by lia. done.
Qed.

Lemma set_player_person_writes_witness :
  ∃ b', set_player_int 10 top_row_open ann (-1) (-1) = Ok b'
        ∧ getitem b' 2 2 = Ok "X"
        ∧ ∀ x' y', (2, 2)%nat ≠ (x', y') →
                   getitem b' x' y' = getitem top_row_open x' y'.
Proof.
  destruct (set_player_person_writes 10 top_row_open ann (-1) (-1))
    as [Hin _].
  - discriminate.
  - apply is_3x3_grid.
  - apply Hin; lia.
Defined.

(** X6. For the bot, [set_player] ignores the position it is given:
    whatever integers [x] and [y] are, the call does the same.  On a board
    of three rows of three with a free position it writes the symbol on the
    position [ai] returns, which was free, so it never overwrites a symbol;
    on a full board it raises, because [ai] does.  The same holds for
    [set_player] with the positions [make_play] passes. *)
Theorem set_player_bot_picks_free fuel (b : Board) player (x y : Z) :
  name player = "Bot" → is_3x3 b → (count_empty b < fuel)%nat →
  (∀ x' y', set_player_int fuel b player x' y'
            = set_player_int fuel b player x y)
  ∧ (∀ x' y' : nat, set_player fuel b player x' y'
                    = set_player_int fuel b player x y)
  ∧ (board_full b = false →
     ∃ row col, ai fuel b player = Ok (row, col, b)
                ∧ getitem b row col = Ok "-"
                ∧ set_player_int fuel b player x y
                  = Ok (put b row col (symbol player)))
  ∧ (board_full b = true →
     set_player_int fuel b player x y = UnboundLocalError).
Proof.
  intros Hname H3 Hfuel. unfold set_player_int, set_player.
  rewrite Hname. cbn [String.eqb Ascii.eqb Bool.eqb andb].
  split; [done|]. split; [done|]. split.
  - intros Hfull.
    destruct (ai_first_best fuel b player H3 Hfull Hfuel)
      as (row & col & Hai & Hxy%first_best_In%in_empty_cells).
    exists row, col. split; [done|]. split; [done|].
    rewrite Hai. cbn [bind]. by eapply setitem_Ok.
  - intros Hfull. rewrite ai_sweep.
    by rewrite (sweep_full _ _ _ b _ Hfull).
Qed.

Lemma set_player_bot_picks_free_witness :
  (∀ x' y', set_player_int 10 top_row_open bot x' y'
            = set_player_int 10 top_row_open bot 1 1)
  ∧ (∀ x' y' : nat, set_player 10 top_row_open bot x' y'
                    = set_player_int 10 top_row_open bot 1 1)
  ∧ (board_full top_row_open = false →
     ∃ row col, ai 10 top_row_open bot = Ok (row, col, top_row_open)
                ∧ getitem top_row_open row col = Ok "-"
                ∧ set_player_int 10 top_row_open bot 1 1
                  = Ok (put top_row_open row col "O"))
  ∧ (board_full top_row_open = true →
     set_player_int 10 top_row_open bot 1 1 = UnboundLocalError).
Proof.
  apply (set_player_bot_picks_free 10 top_row_open bot 1 1).
  - reflexivity.
  - apply is_3x3_grid.
  - vm_compute. lia.
Defined.

(** X7. The dictionary [moves] numbers the positions in row-major order:
    it maps a number to (x, y) exactly when x and y are below 3 and the
    number is 3 x + y + 1, and it has no entry exactly for the numbers
    outside 1..9. *)
Theorem moves_row_major move x y :
  (moves move = Ok (x, y)
   ↔ (x < 3)%nat ∧ (y < 3)%nat ∧ move = Z.of_nat (3 * x + y + 1))
  ∧ (moves move = KeyError ↔ ¬ (0 < move < 10)).
Proof.
  split; split.
  - intros H. pose proof (moves_number move x y H) as Hn.
    destruct (decide (0 < move < 10)) as [Hm|Hm].
    + destruct (moves_in_range move Hm) as (x' & y' & E & Hx & Hy).
      rewrite E in H. injection H as <- <-. done.
    + rewrite (moves_outside move Hm) in H. discriminate.
  - intros (Hx & Hy & ->).
    destruct (moves_onto x y Hx Hy) as (m & Hm & E).
    by rewrite <- (moves_number m x y E).
  - intros H Hm. destruct (moves_in_range move Hm) as (x' & y' & E & _).
    congruence.
  - apply moves_outside.
Qed.

(** X8. The prompt of [make_play] goes through the input in order, passes
    over every entry that is not a number from 1 to 9 or that names a taken
    position, and stops at the first entry that names a free position: it
    returns that position and the input that follows.  When every entry is
    refused the input ends (EOFError).  It raises nothing else. *)
Theorem choose_position_first_accepted (b : Board) inputs :
  is_3x3 b →
  (choose_position b inputs = EOFError ∧ Forall (refused b) inputs)
  ∨ ∃ skipped move x y rest,
      choose_position b inputs = Ok (x, y, rest)
      ∧ inputs = (skipped ++ move :: rest)%list
      ∧ Forall (refused b) skipped
      ∧ moves move = Ok (x, y) ∧ getitem b x y = Ok "-".
Proof.
  intros H3.
  destruct (choose_position_free b inputs H3)
    as [E|(x & y & rest & E & _)].
  - left. split; [done|]. by apply choose_position_refused.
  - right.
    destruct (choose_position_inv b inputs x y rest H3 E)
      as (skipped & move & Hin & Hall & Hmv & Hxy).
    by exists skipped, move, x, y, rest.
Qed.

Lemma choose_position_first_accepted_witness :
  (choose_position top_row_open [0; 1; 12; 4; 3; 7] = EOFError
   ∧ Forall (refused top_row_open) [0; 1; 12; 4; 3; 7])
  ∨ ∃ skipped move x y rest,
      choose_position top_row_open [0; 1; 12; 4; 3; 7] = Ok (x, y, rest)
      ∧ [0; 1; 12; 4; 3; 7] = (skipped ++ move :: rest)%list
      ∧ Forall (refused top_row_open) skipped
      ∧ moves move = Ok (x, y) ∧ getitem top_row_open x y = Ok "-".
Proof. apply choose_position_first_accepted, is_3x3_grid. Defined.

(** X9. On a full board the prompt accepts nothing: whatever is typed, it
    keeps asking until the input ends. *)
Theorem choose_position_full_board (b : Board) inputs :
  is_3x3 b → board_full b = true → choose_position b inputs = EOFError.
Proof. apply choose_position_full. Qed.

Lemma choose_position_full_board_witness :
  choose_position drawn_board [1; 2; 3; 4; 5; 6; 7; 8; 9] = EOFError.
Proof.
  apply choose_position_full_board; [apply is_3x3_grid|reflexivity].
Defined.

(** X10. A turn of [make_play] on a board with a free position, by the bot
    or by a person, writes the player's symbol on exactly one position,
    which was free, and leaves the rest of the input (a suffix of it);
    or the input ends.  No symbol already on the board is overwritten. *)
Theorem make_play_fills_one_free fuel (b : Board) player inputs :
  is_3x3 b → board_full b = false → (count_empty b < fuel)%nat →
  make_play fuel b player inputs = EOFError
  ∨ ∃ x y used rest,
      make_play fuel b player inputs = Ok (put b x y (symbol player), rest)
      ∧ getitem b x y = Ok "-" ∧ inputs = (used ++ rest)%list.
Proof. apply make_play_turn. Qed.

Lemma make_play_fills_one_free_witness :
  make_play 10 top_row_open {| name := "Ann"; symbol := "X" |} [1; 6; 2]
  = EOFError
  ∨ ∃ x y used rest,
      make_play 10 top_row_open {| name := "Ann"; symbol := "X" |} [1; 6; 2]
      = Ok (put top_row_open x y "X", rest)
      ∧ getitem top_row_open x y = Ok "-"
      ∧ [1; 6; 2] = (used ++ rest)%list.
Proof.
  apply (make_play_fills_one_free 10 top_row_open
           {| name := "Ann"; symbol := "X" |}).
  - apply is_3x3_grid.
  - reflexivity.
  - vm_compute. lia.
Defined.

(** X11. The main loop ends.  From a board of three rows of three with a
    free position, for any two players whose symbols are not ['-'], the
    loop stops with an announcement after at most as many turns as there
    are free positions, provided the input keeps naming positions. *)
Theorem game_loop_ends rounds fuel p1 p2 turn (b : Board) inputs :
  is_3x3 b → board_full b = false →
  symbol p1 ≠ "-" → symbol p2 ≠ "-" →
  (count_empty b ≤ rounds)%nat → (count_empty b < fuel)%nat →
  supply (count_empty b) inputs →
  ∃ a b', game_loop rounds fuel p1 p2 turn b inputs = Ok (a, b').
Proof. apply game_loop_finishes. Qed.

Lemma game_loop_ends_witness :
  ∃ a b', game_loop 9 10 ann ben 1 new_board patient_input = Ok (a, b').
Proof.
  apply game_loop_ends.
  - apply is_3x3_grid.
  - reflexivity.
  - discriminate.
  - discriminate.
  - vm_compute. lia.
  - vm_compute. lia.
  - exact supply_patient_input.
Defined.

(** X12. The announcement of the main loop agrees with the board.  In a
    game of two players (persons or bot, whatever their names) from the
    empty board, the player announced as winner, who is the one that moved
    last, is the one whose symbol [game_state] reports on the final board; a
    draw is announced only on a full board that nobody has won; and the
    loop raises nothing but the end of the input. *)
Theorem two_player_fair rounds fuel first second rand_gt_half inputs :
  (9 ≤ rounds)%nat → (10 ≤ fuel)%nat →
  fair_outcome {| name := first; symbol := "X" |}
               {| name := second; symbol := "O" |}
               (two_player rounds fuel first second rand_gt_half inputs).
Proof.
  intros Hrounds Hfuel. unfold two_player.
  assert (count_empty new_board = 9%nat) as E9 by reflexivity.
  apply game_loop_fair; try reflexivity; try lia.
  apply is_3x3_grid.
Qed.

Lemma two_player_fair_witness :
  fair_outcome ann ben (two_player 9 10 "Ann" "Ben" true [1; 2; 3; 4; 5; 6; 7]).
Proof. apply (two_player_fair 9 10 "Ann" "Ben" true); lia. Defined.

(** X13. Turns alternate.  On the board a game of two players ends on, the
    numbers of ['X'] and of ['O'] differ by at most one. *)
Theorem two_player_balanced rounds fuel first second rand_gt_half inputs a b :
  (10 ≤ fuel)%nat →
  two_player rounds fuel first second rand_gt_half inputs = Ok (a, b) →
  (count_symbol b "X" ≤ count_symbol b "O" + 1
   ∧ count_symbol b "O" ≤ count_symbol b "X" + 1)%nat.
Proof.
  intros Hfuel. unfold two_player.
  assert (count_empty new_board = 9%nat) as E9 by reflexivity.
  apply game_loop_balanced; try reflexivity; try lia.
  - apply is_3x3_grid.
  - destruct rand_gt_half; auto.
  - unfold balanced. destruct rand_gt_half; cbn; lia.
Qed.

Lemma two_player_balanced_witness :
  (count_symbol ann_wins_board "X" ≤ count_symbol ann_wins_board "O" + 1
   ∧ count_symbol ann_wins_board "O" ≤ count_symbol ann_wins_board "X" + 1)%nat.
Proof.
  apply (two_player_balanced 9 10 "Ann" "Ben" true [1; 2; 3; 4; 5; 6; 7]
           (HasWon ann) ann_wins_board).
  - lia.
  - reflexivity.
Defined.

(** X14. The move of [ai] is worth the board.  On a board where the game
    goes on, for a player with symbol ['O'], the board after the move [ai]
    returns has, for the minimizing layer, the score that [minimax] gives
    the board before the move for the maximizing layer. *)
Theorem ai_move_has_board_value fuel (b : Board) player :
  is_3x3 b → non_terminal b → (count_empty b < fuel)%nat →
  symbol player = "O" →
  ∃ row col, ai fuel b player = Ok (row, col, b)
             ∧ value fuel (put b row col "O") false = value fuel b true.
Proof.
  intros H3 Hnt Hfuel Hs.
  destruct (non_terminal_verdict b H3 Hnt) as [Hv Hfull].
  destruct (ai_first_best fuel b player H3 Hfull Hfuel)
    as (row & col & Hai & Hfb).
  exists row, col. split; [done|].
  assert (move_score fuel b player = move_score fuel b bot) as E.
  { unfold move_score. by rewrite Hs. }
  rewrite E in Hfb.
  apply (ai_move_value fuel b row col H3 Hv Hfull Hfuel Hfb).
Qed.

Lemma ai_move_has_board_value_witness :
  ∃ row col, ai 10 top_row_open bot = Ok (row, col, top_row_open)
             ∧ value 10 (put top_row_open row col "O") false
               = value 10 top_row_open true.
Proof.
  apply (ai_move_has_board_value 10 top_row_open bot).
  - apply is_3x3_grid.
  - split; reflexivity.
  - vm_compute. lia.
  - reflexivity.
Defined.

(** X15. The bot wins every position it can win.  From any board of three
    rows of three where the game goes on and to which [minimax] gives the
    score 10 in the layer of the player to move, the main loop ends with the
    bot announced as winner on a board ['O'] has won, whatever the person
    plays, unless the input ends first: never a draw, never a loss. *)
Theorem bot_wins_won_position rounds fuel p1 turn (b : Board) inputs :
  is_3x3 b → non_terminal b → symbol p1 = "X" → turn = 1 ∨ turn = -1 →
  value fuel b (negb (turn =? 1)) = 10 →
  (count_empty b ≤ rounds)%nat → (count_empty b < fuel)%nat →
  bot_wins (game_loop rounds fuel p1 bot turn b inputs).
Proof.
  intros H3 Hnt. destruct (non_terminal_verdict b H3 Hnt) as [Hv Hfull].
  by apply game_loop_wins.
Qed.

Lemma bot_wins_won_position_witness :
  bot_wins (game_loop 9 10 ann bot (-1) top_row_open [7; 8; 9]).
Proof.
  apply bot_wins_won_position.
  - apply is_3x3_grid.
  - split; reflexivity.
  - reflexivity.
  - by right.
  - reflexivity.
  - vm_compute. lia.
  - vm_compute. lia.
Defined.

(** X16. The bot holds every position it can hold.  From any board of
    three rows of three where the game goes on and to which [minimax] gives
    a score that is not negative in the layer of the player to move, not
    only from the empty board, the main loop never announces the person as
    the winner, whatever the person plays. *)
Theorem bot_holds_any_position rounds fuel p1 turn (b : Board) inputs :
  is_3x3 b → non_terminal b → symbol p1 = "X" → turn = 1 ∨ turn = -1 →
  0 ≤ value fuel b (negb (turn =? 1)) →
  (count_empty b ≤ rounds)%nat → (count_empty b < fuel)%nat →
  bot_not_beaten (game_loop rounds fuel p1 bot turn b inputs).
Proof.
  intros H3 Hnt. destruct (non_terminal_verdict b H3 Hnt) as [Hv Hfull].
  by apply game_loop_safe.
Qed.

Lemma bot_holds_any_position_witness :
  bot_not_beaten (game_loop 9 10 ann bot 1 fork_board [9; 7; 8]).
Proof.
  apply bot_holds_any_position.
  - apply is_3x3_grid.
  - split; reflexivity.
  - reflexivity.
  - by left.
  - vm_compute. discriminate.
  - vm_compute. lia.
  - vm_compute. lia.
Defined.

(** X17. [show_board] loses nothing: two boards of three rows of three
    whose positions hold one character each are printed as the same text
    only when they are the same board. *)
Theorem show_board_determines_board (b1 b2 : Board) :
  is_3x3 b1 → is_3x3 b2 → one_char_cells b1 → one_char_cells b2 →
  show_board b1 = show_board b2 → b1 = b2.
Proof. apply show_board_injective. Qed.

Lemma show_board_determines_board_witness : top_row_open = top_row_open.
Proof.
  apply show_board_determines_board.
  - apply is_3x3_grid.
  - apply is_3x3_grid.
  - repeat constructor.
  - repeat constructor.
  - reflexivity.
Defined.

(** X18. [minimax] sees a line that can be completed at once.  On a board
    where the game goes on, when some free position completes a line of
    ['O'] the maximizing layer scores the board 10, and when some free
    position completes a line of ['X'] the minimizing layer scores it -10. *)
Theorem minimax_sees_immediate_win fuel (b : Board) x y :
  is_3x3 b → non_terminal b → (count_empty b < fuel)%nat →
  getitem b x y = Ok "-" →
  (game_state (put b x y "O") = Ok (true, Some "O") → value fuel b true = 10)
  ∧ (game_state (put b x y "X") = Ok (true, Some "X") →
     value fuel b false = -10).
Proof.
  intros H3 Hnt Hfuel Hxy.
  destruct (non_terminal_verdict b H3 Hnt) as [Hv Hfull].
  pose proof (in_empty_cells b x y) as [_ Hin]. specialize (Hin Hxy).
  split; intros Hg.
  - rewrite (game_state_3x3 _ (is_3x3_put b x y "O" H3)) in Hg.
    injection Hg as Hg.
    destruct (minimax_value fuel b 0 true H3 Hfuel) as [_ Hs].
    assert (10 ≤ value fuel b true) as Hge.
    { rewrite (value_layer fuel b true H3 Hv Hfull Hfuel). cbn [negb].
      assert (value fuel (put b x y "O") false = 10) as <-.
      { rewrite (value_won fuel (put b x y "O") false "O"); auto; [|lia].
        by apply is_3x3_put. }
      apply fold_max_ge. right.
      apply (in_map (fun p => value fuel (put b p.1 p.2 "O") false)
               _ (x, y) Hin). }
    unfold is_score in Hs. lia.
  - rewrite (game_state_3x3 _ (is_3x3_put b x y "X" H3)) in Hg.
    injection Hg as Hg.
    destruct (minimax_value fuel b 0 false H3 Hfuel) as [_ Hs].
    assert (value fuel b false ≤ -10) as Hge.
    { rewrite (value_layer fuel b false H3 Hv Hfull Hfuel). cbn [negb].
      assert (value fuel (put b x y "X") true = -10) as <-.
      { rewrite (value_won fuel (put b x y "X") true "X"); auto; [|lia].
        by apply is_3x3_put. }
      apply fold_min_le. right.
      apply (in_map (fun p => value fuel (put b p.1 p.2 "X") true)
               _ (x, y) Hin). }
    unfold is_score in Hs. lia.
Qed.

Lemma minimax_sees_immediate_win_witness :
  value 10 top_row_open true = 10.
Proof.
  apply (minimax_sees_immediate_win 10 top_row_open 0 2).
  - apply is_3x3_grid.
  - split; reflexivity.
  - vm_compute. lia.
  - reflexivity.
  - reflexivity.
Defined.

(** X19. [ai] does not always complete a line when it can.  Scores do not
    depend on the depth and the first of the best positions is kept, so a
    position that wins later is preferred to a later position that wins at
    once: on the board - X - / - O O / - X - the bot could complete the
    middle row at (1, 0), and [ai] returns (0, 0), after which nobody has
    won yet. *)
Theorem ai_may_delay_the_win :
  ∃ (b : Board) row col x y,
    is_3x3 b ∧ non_terminal b
    ∧ ai 10 b bot = Ok (row, col, b)
    ∧ game_state (put b row col "O") = Ok (false, None)
    ∧ getitem b x y = Ok "-"
    ∧ game_state (put b x y "O") = Ok (true, Some "O").
Proof.
  exists middle_row_open, 0%nat, 0%nat, 1%nat, 0%nat.
  split; [apply is_3x3_grid|]. split; [by split|].
  repeat split; reflexivity.
Qed.
